(** * SysStats: per-user process statistics for the members of a group

    A shallow embedding of [sys_stat.py] and the properties of its
    collection pipeline.

    Layout of the development:
    - [Py]: the fragment of the Python runtime the script relies on
      (text as sequences of code points, strict UTF-8 decoding,
      [str.strip], [str.split], [int], [float], binary64 addition,
      the [.2f] format, [repr] of floats and [json.dumps]);
    - the coroutines of the script as programs over one effect, the
      execution of a shell command, with exceptions;
    - the event loop: [await] of one coroutine, [asyncio.gather] under an
      arbitrary completion order, [print];
    - the vocabulary of the statements and the machines of the examples;
    - lemmas on coroutines, on one collection, on [gather] and on the
      whole run, and then the theorems.

    What the model takes for granted:
    - the machine is a function from commands to ended processes: every
      command ends, and ends the same way each time it is run;
    - starting a process does not fail by itself, and standard output
      accepts what [print] writes;
    - the argument parser has accepted the command line, so that [main]
      starts with the group command;
    - the interpreter's limit on the number of digits in conversions
      between [int] and [str] is disabled. *)

From Stdlib Require Import ZArith NArith List Bool Lia.
From Stdlib Require Import Strings.String Strings.Byte.
From Stdlib Require Import SpecFloat DecimalPos.
From stdpp Require Import base option list.

Local Open Scope Z_scope.

(* ===================================================================== *)
(** * The Python runtime fragment *)
(* ===================================================================== *)

Module Py.

(** Python text ([str]) is a sequence of Unicode code points; [bytes] is a
    sequence of bytes. *)
Definition char := N.
Definition str := list char.
Definition bytes := list byte.

(** A literal of the script: the code points of an ASCII string. *)
Definition lit (s : string) : str :=
  map Byte.to_N (list_byte_of_string s).

Arguments lit s%_string.

Definition TAB : str := [9%N].
Definition LF : char := 10%N.
Definition NL : str := [LF].
Definition QUOTE : str := [34%N].

Definition str_eqb (a b : str) : bool := bool_decide (a = b).

(** ** [bytes.decode()]: strict UTF-8 *)

Definition is_cont (b : N) : bool := (128 <=? b)%N && (b <=? 191)%N.
Definition in_range (lo hi b : N) : bool := (lo <=? b)%N && (b <=? hi)%N.
Definition low6 (b : N) : N := (b - 128)%N.

Fixpoint utf8_decode (bs : list N) : option str :=
  match bs with
  | [] => Some []
  | b0 :: r0 =>
    if (b0 <? 128)%N then cons b0 <$> utf8_decode r0
    else if in_range 194 223 b0 then
      match r0 with
      | b1 :: r1 =>
        if is_cont b1
        then cons ((b0 - 192) * 64 + low6 b1)%N <$> utf8_decode r1
        else None
      | _ => None
      end
    else if in_range 224 239 b0 then
      match r0 with
      | b1 :: b2 :: r2 =>
        if in_range (if (b0 =? 224)%N then 160 else 128)
                    (if (b0 =? 237)%N then 159 else 191) b1 && is_cont b2
        then cons ((b0 - 224) * 4096 + low6 b1 * 64 + low6 b2)%N
               <$> utf8_decode r2
        else None
      | _ => None
      end
    else if in_range 240 244 b0 then
      match r0 with
      | b1 :: b2 :: b3 :: r3 =>
        if in_range (if (b0 =? 240)%N then 144 else 128)
                    (if (b0 =? 244)%N then 143 else 191) b1
           && is_cont b2 && is_cont b3
        then cons ((b0 - 240) * 262144 + low6 b1 * 4096
                   + low6 b2 * 64 + low6 b3)%N <$> utf8_decode r3
        else None
      | _ => None
      end
    else None
  end.

(** [b.decode()]: [None] stands for [UnicodeDecodeError]. *)
Definition decode (b : bytes) : option str :=
  utf8_decode (map Byte.to_N b).

(** Bytes of an ASCII literal, for examples. *)
Definition blit (s : string) : bytes := list_byte_of_string s.
Arguments blit s%_string.

(** ** Whitespace, [str.strip()], [str.split(sep)], [str.split()] *)

(** [str.isspace] on one code point: the set used by [strip] and [split]
    without arguments. *)
Definition isspace (c : char) : bool :=
  in_range 9 13 c || in_range 28 32 c || (c =? 133)%N || (c =? 160)%N
  || (c =? 5760)%N || in_range 8192 8202 c || (c =? 8232)%N
  || (c =? 8233)%N || (c =? 8239)%N || (c =? 8287)%N || (c =? 12288)%N.

Fixpoint lstrip (s : str) : str :=
  match s with
  | c :: r => if isspace c then lstrip r else s
  | [] => []
  end.

Definition rstrip (s : str) : str := rev (lstrip (rev s)).

Definition strip (s : str) : str := rstrip (lstrip s).

(** [s.split(sep)] for a one-character separator: every occurrence cuts,
    so the result is never empty. *)
Fixpoint split_on (sep : char) (s : str) : list str :=
  match s with
  | [] => [[]]
  | c :: r =>
    if (c =? sep)%N then [] :: split_on sep r
    else match split_on sep r with
         | w :: ws => (c :: w) :: ws
         | [] => [[c]]
         end
  end.

(** [s.split()]: the maximal runs of non-whitespace. *)
Fixpoint split_ws_aux (cur : str) (s : str) : list str :=
  match s with
  | [] => match cur with [] => [] | _ => [rev cur] end
  | c :: r =>
    if isspace c
    then match cur with
         | [] => split_ws_aux [] r
         | _ => rev cur :: split_ws_aux [] r
         end
    else split_ws_aux (c :: cur) r
  end.

Definition split_ws (s : str) : list str := split_ws_aux [] s.

(** Truth value of a [str] and of an [Optional[str]]. *)
Definition str_truthy (s : str) : bool :=
  match s with [] => false | _ => true end.

(** ** Decimal digits *)

(** The zeros of the decimal-digit blocks (general category Nd) of
    Unicode 14.0, the character database of CPython 3.11: each block holds
    the ten digits 0 to 9 in order.  [int] and [float] accept any of them. *)
Definition digit_zeros : list N :=
  [48; 1632; 1776; 1984; 2406; 2534; 2662; 2790; 2918; 3046; 3174; 3302;
   3430; 3558; 3664; 3792; 3872; 4160; 4240; 6112; 6160; 6470; 6608; 6784;
   6800; 6992; 7088; 7232; 7248; 42528; 43216; 43264; 43472; 43504; 43600;
   44016; 65296; 66720; 68912; 69734; 69872; 69942; 70096; 70384; 70736;
   70864; 71248; 71360; 71472; 71904; 72016; 72784; 73040; 73120; 92768;
   92864; 93008; 120782; 120792; 120802; 120812; 120822; 123200; 123632;
   125264; 130032]%N.

Definition decimal_value (c : char) : option N :=
  match filter (fun z => in_range z (z + 9) c = true) digit_zeros with
  | z :: _ => Some (c - z)%N
  | [] => None
  end.

(** What [int] and [float] do to their argument before parsing: characters
    below 127 are kept, other whitespace becomes a space, other decimal
    digits become ASCII digits, and anything else becomes [?] (which no
    numeral contains). *)
Definition to_ascii_char (c : char) : char :=
  if (c <? 127)%N then c
  else if isspace c then 32%N
  else match decimal_value c with
       | Some d => (48 + d)%N
       | None => 63%N
       end.

(** C [isspace]: the whitespace [int] and [float] strip around a numeral
    (the separators 28 to 31 are not in it). *)
Definition ascii_space (c : char) : bool := in_range 9 13 c || (c =? 32)%N.

Fixpoint lstrip_ascii (s : str) : str :=
  match s with
  | c :: r => if ascii_space c then lstrip_ascii r else s
  | [] => []
  end.

Definition numeric_prep (s : str) : str :=
  rev (lstrip_ascii (rev (lstrip_ascii (map to_ascii_char s)))).

Definition ascii_digit (c : char) : option N :=
  if in_range 48 57 c then Some (c - 48)%N else None.

(** A digit part: digits with single underscores between them.  Returns the
    digits read and the rest of the text; [None] when the text does not
    start with a digit or an underscore is misplaced. *)
Fixpoint digitpart_aux (acc : list N) (s : str) : option (list N * str) :=
  match s with
  | 95%N :: c :: r =>
    match ascii_digit c with
    | Some d => digitpart_aux (d :: acc) r
    | None => None
    end
  | [95%N] => None
  | c :: r =>
    match ascii_digit c with
    | Some d => digitpart_aux (d :: acc) r
    | None => Some (rev acc, s)
    end
  | [] => Some (rev acc, [])
  end.

Definition digitpart (s : str) : option (list N * str) :=
  match s with
  | c :: r =>
    match ascii_digit c with
    | Some d => digitpart_aux [d] r
    | None => None
    end
  | [] => None
  end.

Definition digits_value (ds : list N) : N :=
  fold_left (fun acc d => (acc * 10 + d)%N) ds 0%N.

(** An optional sign: [true] for a minus. *)
Definition read_sign (s : str) : bool * str :=
  match s with
  | 45%N :: r => (true, r)
  | 43%N :: r => (false, r)
  | _ => (false, s)
  end.

(** ** [int(s)]: [None] stands for [ValueError].  The interpreter's
    configurable limit on the number of digits is taken as disabled. *)
Definition int_of_str (s : str) : option Z :=
  let '(neg, r) := read_sign (numeric_prep s) in
  match digitpart r with
  | Some (ds, []) =>
    let n := Z.of_N (digits_value ds) in
    Some (if neg then - n else n)
  | _ => None
  end.

(** [str(n)] for an [int]. *)
Fixpoint uint_chars (d : Decimal.uint) : str :=
  match d with
  | Decimal.Nil => []
  | Decimal.D0 r => 48%N :: uint_chars r
  | Decimal.D1 r => 49%N :: uint_chars r
  | Decimal.D2 r => 50%N :: uint_chars r
  | Decimal.D3 r => 51%N :: uint_chars r
  | Decimal.D4 r => 52%N :: uint_chars r
  | Decimal.D5 r => 53%N :: uint_chars r
  | Decimal.D6 r => 54%N :: uint_chars r
  | Decimal.D7 r => 55%N :: uint_chars r
  | Decimal.D8 r => 56%N :: uint_chars r
  | Decimal.D9 r => 57%N :: uint_chars r
  end.

Definition str_of_N (n : N) : str := uint_chars (N.to_uint n).

Definition str_of_int (z : Z) : str :=
  match z with
  | Zneg p => lit "-" ++ str_of_N (Npos p)
  | _ => str_of_N (Z.to_N z)
  end.

(** ** [float]: IEEE 754 binary64 *)

Definition float := spec_float.
Definition prec : Z := 53.
Definition emax : Z := 1024.

#[global] Instance float_eq_dec : EqDecision float.
Proof. solve_decision. Defined.

(** [x + y] on floats, rounded to nearest even. *)
Definition fadd (x y : float) : float := SFadd prec emax x y.

(** The literal [0.0]. *)
Definition float_zero : float := S754_zero false.


(** The float nearest to [d * 10^e] (ties to even), overflowing to an
    infinity and underflowing to a zero as [float(s)] does. *)
Definition float_of_decimal (neg : bool) (d : N) (e : Z) : float :=
  match d with
  | N0 => S754_zero neg
  | Npos p =>
    match e with
    | Zneg k =>
      let '(q, e', l) :=
        SFdiv_core_binary prec emax (Zpos p) 0 (Z.pow_pos 10 k) 0 in
      binary_round_aux prec emax neg q e' l
    | _ => binary_round prec emax neg (p * Z.to_pos (10 ^ e)) 0
    end
  end.

Definition lower (c : char) : char :=
  if in_range 65 90 c then (c + 32)%N else c.

(** Integer and fraction digits of a numeral, and the rest of the text. *)
Definition read_mantissa (s : str) : option (list N * list N * str) :=
  match s with
  | 46%N :: r =>
    match digitpart r with
    | Some (fp, r') => Some ([], fp, r')
    | None => None
    end
  | _ =>
    match digitpart s with
    | Some (ip, 46%N :: r) =>
      match digitpart r with
      | Some (fp, r') => Some (ip, fp, r')
      | None => Some (ip, [], r)
      end
    | Some (ip, r) => Some (ip, [], r)
    | None => None
    end
  end.

(** The exponent part, which must end the text. *)
Definition read_exponent (s : str) : option Z :=
  match s with
  | [] => Some 0
  | c :: r =>
    if (lower c =? 101)%N then
      let '(neg, r') := read_sign r in
      match digitpart r' with
      | Some (ds, []) =>
        let x := Z.of_N (digits_value ds) in
        Some (if neg then - x else x)
      | _ => None
      end
    else None
  end.

(** [float(s)]: [None] stands for [ValueError]. *)
Definition float_of_str (s : str) : option float :=
  let '(neg, r) := read_sign (numeric_prep s) in
  let w := map lower r in
  if str_eqb w (lit "inf") || str_eqb w (lit "infinity")
  then Some (S754_infinity neg)
  else if str_eqb w (lit "nan") then Some S754_nan
  else
    match read_mantissa r with
    | Some (ip, fp, r') =>
      match read_exponent r' with
      | Some x =>
        Some (float_of_decimal neg (digits_value (ip ++ fp))
                (x - Z.of_nat (length fp)))
      | None => None
      end
    | None => None
    end.

(** ** [format(x, ".2f")] *)

Definition sign_str (neg : bool) : str := if neg then lit "-" else [].

(** [m * 2^e * 100] rounded to the nearest integer, ties to even. *)
Definition scaled_round (m : positive) (e : Z) : N :=
  let n := (Zpos m * 100)%Z in
  match e with
  | Zneg k =>
    let d := Z.pow_pos 2 k in
    let q := n / d in
    match Z.compare (2 * (n mod d)) d with
    | Lt => Z.to_N q
    | Gt => Z.to_N (q + 1)
    | Eq => Z.to_N (if Z.even q then q else q + 1)
    end
  | _ => Z.to_N (n * 2 ^ e)
  end.

Definition two_digits (n : N) : str :=
  [(48 + n / 10)%N; (48 + n mod 10)%N].

(** The hundredths [q] written as a fixed-point numeral. *)
Definition fixed2 (neg : bool) (q : N) : str :=
  sign_str neg ++ str_of_N (q / 100) ++ lit "." ++ two_digits (q mod 100).

Definition format_2f (x : float) : str :=
  match x with
  | S754_nan => lit "nan"
  | S754_infinity s => sign_str s ++ lit "inf"
  | S754_zero s => fixed2 s 0
  | S754_finite s m e => fixed2 s (scaled_round m e)
  end.

(** ** [repr(x)] of a float: the shortest digits that read back as [x] *)

(** Number of decimal digits of a positive integer. *)
Definition ndigits (n : Z) : Z := Z.of_nat (length (str_of_N (Z.to_N n))).

(** The decimal exponent [k] of the positive rational [num / den]:
    [10^(k-1) <= num / den < 10^k]. *)
Definition decimal_exponent (num den : Z) : Z :=
  let k0 := ndigits num - ndigits den in
  if den * 10 ^ Z.max 0 k0 <=? num * 10 ^ Z.max 0 (- k0)
  then k0 + 1 else k0.

(** The two decimals with [n] significant digits around [num / den], as
    integers to be scaled by [10^(k-n)], and the position of the rational
    between them. *)
Definition neighbours (num den k n : Z) : Z * comparison * bool :=
  let a := num * 10 ^ Z.max 0 (n - k) in
  let b := den * 10 ^ Z.max 0 (k - n) in
  (a / b, Z.compare (2 * (a mod b)) b, (a mod b =? 0)).

Definition reads_back (x : float) (c e : Z) : bool :=
  bool_decide (float_of_decimal false (Z.to_N c) e = x).

(** The candidate with [n] digits, if one reads back as [x]: the nearer
    neighbour when both do. *)
Definition candidate (x : float) (num den k n : Z) : option Z :=
  let '(lo, side, exact) := neighbours num den k n in
  let hi := lo + 1 in
  let ok_lo := reads_back x lo (k - n) in
  let ok_hi := negb exact && reads_back x hi (k - n) in
  if ok_lo && ok_hi then
    Some (match side with
          | Lt => lo
          | Gt => hi
          | Eq => if Z.even lo then lo else hi
          end)
  else if ok_lo then Some lo
  else if ok_hi then Some hi
  else None.

(** The nearest decimal with 17 digits, which always reads back. *)
Definition nearest17 (num den k : Z) : Z :=
  let '(lo, side, _) := neighbours num den k 17 in
  match side with
  | Lt => lo
  | Gt => lo + 1
  | Eq => if Z.even lo then lo else lo + 1
  end.

Fixpoint shortest_from (fuel : nat) (x : float) (num den k n : Z) : Z * Z :=
  match fuel with
  | O => (nearest17 num den k, k - 17)
  | S fuel' =>
    match candidate x num den k n with
    | Some c => (c, k - n)
    | None => shortest_from fuel' x num den k (n + 1)
    end
  end.

Fixpoint strip_zeros (ds : str) : str :=
  match ds with
  | 48%N :: r => strip_zeros r
  | _ => ds
  end.

(** Digits (without trailing zeros) and position of the decimal point of
    the shortest decimal that reads back as the positive float
    [m * 2^e]. *)
Definition shortest_digits (m : positive) (e : Z) : str * Z :=
  let '(num, den) :=
    match e with
    | Zneg p => (Zpos m, Z.pow_pos 2 p)
    | _ => (Zpos m * 2 ^ e, 1)
    end in
  let k := decimal_exponent num den in
  let '(c, ce) := shortest_from 16 (S754_finite false m e) num den k 1 in
  let ds := str_of_N (Z.to_N c) in
  (rev (strip_zeros (rev ds)), Z.of_nat (length ds) + ce).

Definition zeros (n : Z) : str := repeat 48%N (Z.to_nat n).

(** Layout of [repr]: exponent notation when the decimal point [decpt]
    would be far from the digits, and [.0] after an integer. *)
Definition repr_layout (ds : str) (decpt : Z) : str :=
  if (decpt <=? -4) || (16 <? decpt) then
    let x := decpt - 1 in
    let ax := str_of_N (Z.to_N (Z.abs x)) in
    take 1 ds
    ++ (match drop 1 ds with [] => [] | r => lit "." ++ r end)
    ++ lit "e" ++ (if x <? 0 then lit "-" else lit "+")
    ++ (if Z.abs x <? 10 then lit "0" ++ ax else ax)
  else if decpt <=? 0 then lit "0." ++ zeros (- decpt) ++ ds
  else if Z.of_nat (length ds) <=? decpt
  then ds ++ zeros (decpt - Z.of_nat (length ds)) ++ lit ".0"
  else take (Z.to_nat decpt) ds ++ lit "." ++ drop (Z.to_nat decpt) ds.

Definition float_repr (x : float) : str :=
  match x with
  | S754_nan => lit "nan"
  | S754_infinity s => sign_str s ++ lit "inf"
  | S754_zero s => sign_str s ++ lit "0.0"
  | S754_finite s m e =>
    let '(ds, decpt) := shortest_digits m e in
    sign_str s ++ repr_layout ds decpt
  end.

(** ** [json.dumps] *)

(** The Python values the script serialises. *)
#[local] Unset Elimination Schemes.
Inductive value :=
  | VNone
  | VInt (n : Z)
  | VFloat (x : float)
  | VStr (s : str)
  | VList (l : list value)
  | VDict (items : list (str * value)).
#[local] Set Elimination Schemes.

Definition hex_digit (n : N) : char :=
  if (n <? 10)%N then (48 + n)%N else (87 + n)%N.

(** [\uXXXX] for a 16-bit unit. *)
Definition u_escape (n : N) : str :=
  lit "\u" ++ [hex_digit (n / 4096); hex_digit (n / 256 mod 16);
               hex_digit (n / 16 mod 16); hex_digit (n mod 16)]%N.

(** One character of a JSON string with [ensure_ascii]. *)
Definition json_char (c : char) : str :=
  if (c =? 34)%N then lit "\" ++ QUOTE
  else if (c =? 92)%N then lit "\\"
  else if (c =? 10)%N then lit "\n"
  else if (c =? 13)%N then lit "\r"
  else if (c =? 9)%N then lit "\t"
  else if (c =? 12)%N then lit "\f"
  else if (c =? 8)%N then lit "\b"
  else if in_range 32 126 c then [c]
  else if (c <? 65536)%N then u_escape c
  else u_escape (55296 + (c - 65536) / 1024)
       ++ u_escape (56320 + (c - 65536) mod 1024).

Definition json_str (s : str) : str :=
  QUOTE ++ concat (map json_char s) ++ QUOTE.

Definition json_float (x : float) : str :=
  match x with
  | S754_nan => lit "NaN"
  | S754_infinity s => sign_str s ++ lit "Infinity"
  | _ => float_repr x
  end.

(** [sep.join(parts)]. *)
Fixpoint join (sep : str) (parts : list str) : str :=
  match parts with
  | [] => []
  | [p] => p
  | p :: ps => p ++ sep ++ join sep ps
  end.

(** [json.dumps(v)] with the default separators. *)
Fixpoint json_dumps (v : value) : str :=
  match v with
  | VNone => lit "null"
  | VInt n => str_of_int n
  | VFloat x => json_float x
  | VStr s => json_str s
  | VList l => lit "[" ++ join (lit ", ") (map json_dumps l) ++ lit "]"
  | VDict items =>
    lit "{"
    ++ join (lit ", ")
         (map (fun kv => json_str (fst kv) ++ lit ": " ++ json_dumps (snd kv))
              items)
    ++ lit "}"
  end.

End Py.

Import Py.

(* ===================================================================== *)
(** * The script *)
(* ===================================================================== *)

(** ** Exceptions and coroutines *)

(** [CommandRunException] is the script's own exception class; the other
    two are raised by the runtime: [bytes.decode] on bytes that are not
    UTF-8, and [int], [float] or a tuple unpacking on text of the wrong
    shape. *)
Inductive exn :=
  | CommandRunException (message : str)
  | UnicodeDecodeError
  | ValueError.

(** What [process.communicate()] and [process.returncode] give once the
    process has ended. *)
Record Process := {
  returncode : Z;
  output : bytes;
  error : bytes
}.

(** A coroutine: it returns, raises, or awaits a shell command and goes on
    with the ended process. *)
Inductive Coro (A : Type) : Type :=
  | Return (a : A)
  | Raise (e : exn)
  | Shell (command : str) (k : Process -> Coro A).

Arguments Return {A} a.
Arguments Raise {A} e.
Arguments Shell {A} command k.

Fixpoint bind {A B : Type} (p : Coro A) (f : A -> Coro B) : Coro B :=
  match p with
  | Return a => f a
  | Raise e => Raise e
  | Shell c k => Shell c (fun r => bind (k r) f)
  end.

#[global] Instance Coro_ret : MRet Coro := @Return.
#[global] Instance Coro_bind : MBind Coro := fun A B f p => bind p f.
#[global] Instance Coro_fmap : FMap Coro :=
  fun A B f p => bind p (fun a => Return (f a)).

(** [try: body / except CommandRunException: handler]. *)
Fixpoint except_CommandRunException {A : Type} (body handler : Coro A)
  : Coro A :=
  match body with
  | Return a => Return a
  | Raise (CommandRunException _) => handler
  | Raise e => Raise e
  | Shell c k => Shell c (fun r => except_CommandRunException (k r) handler)
  end.

(** Runtime operations that raise. *)
Definition decode_ (b : bytes) : Coro str :=
  match decode b with
  | Some s => Return s
  | None => Raise UnicodeDecodeError
  end.

Definition int_ (s : str) : Coro Z :=
  match int_of_str s with
  | Some n => Return n
  | None => Raise ValueError
  end.

Definition float_ (s : str) : Coro float :=
  match float_of_str s with
  | Some x => Return x
  | None => Raise ValueError
  end.

(** [a, b, c = l]. *)
Definition unpack3 (l : list str) : Coro (str * str * str) :=
  match l with
  | [a; b; c] => Return (a, b, c)
  | _ => Raise ValueError
  end.

(** ** [UserStat] *)

Record UserStat := {
  username : str;
  upn : option str;
  rss_total : Z;
  pmem_total : float;
  pcpu_total : float
}.

(** [self.upn if self.upn else "none"]: [None] and the empty text are
    both false. *)
Definition upn_or_none (u : option str) : str :=
  match u with
  | Some s => if str_truthy s then s else lit "none"
  | None => lit "none"
  end.

Definition to_table_row (self : UserStat) : str :=
  username self ++ TAB ++ upn_or_none (upn self) ++ TAB
  ++ str_of_int (rss_total self) ++ TAB
  ++ format_2f (pmem_total self) ++ TAB
  ++ format_2f (pcpu_total self).

(** [self.__dict__]: the attributes in the order [__init__] sets them. *)
Definition dict_of (self : UserStat) : value :=
  VDict [(lit "username", VStr (username self));
         (lit "upn", match upn self with Some s => VStr s | None => VNone end);
         (lit "rss_total", VInt (rss_total self));
         (lit "pmem_total", VFloat (pmem_total self));
         (lit "pcpu_total", VFloat (pcpu_total self))].

Definition to_json (self : UserStat) : str := json_dumps (dict_of self).

(** ** [run_command] *)

Definition run_command (command : str) : Coro str :=
  Shell command (fun process =>
    if negb (returncode process =? 0) then
      error ← decode_ (error process);
      Raise (CommandRunException
               (lit "Error running command " ++ command ++ lit ": " ++ error))
    else decode_ (output process)).

(** ** [get_user_stats] *)

Definition identity_command (username : str) : str :=
  lit "adquery user -P " ++ username.

Definition process_command (username : str) : str :=
  lit "ps -hax -o rss,pmem,pcpu -u " ++ username.

(** The body of the [for] loop, over the remaining lines, with the three
    running totals. *)
Fixpoint for_lines (lines : list str) (totals : Z * float * float)
  : Coro (Z * float * float) :=
  match lines with
  | [] => Return totals
  | line :: lines' =>
    let '(rss_total, pmem_total, pcpu_total) := totals in
    '(rss, pmem, pcpu) ← unpack3 (split_ws line);
    n ← int_ rss;
    let rss_total := rss_total + n in
    x ← float_ pmem;
    let pmem_total := fadd pmem_total x in
    y ← float_ pcpu;
    let pcpu_total := fadd pcpu_total y in
    for_lines lines' (rss_total, pmem_total, pcpu_total)
  end.

(** [upn.strip() if upn else None]. *)
Definition strip_if_truthy (upn : option str) : option str :=
  match upn with
  | Some s => if str_truthy s then Some (strip s) else None
  | None => None
  end.

(** Lines 45 to 48: the identity lookup, [None] when the command fails. *)
Definition lookup_upn (username : str) : Coro (option str) :=
  except_CommandRunException
    (Some <$> run_command (identity_command username))
    (Return None).

(** Lines 50 to 62: the process lookup and the totals, no record when the
    command fails. *)
Definition lookup_stats (username : str) (upn : option str)
  : Coro (option UserStat) :=
  except_CommandRunException
    (process_stats ← run_command (process_command username);
     '(rss_total, pmem_total, pcpu_total) ←
       for_lines (split_on LF (strip process_stats))
                 (0, float_zero, float_zero);
     Return (Some {| username := username;
                     upn := strip_if_truthy upn;
                     rss_total := rss_total;
                     pmem_total := pmem_total;
                     pcpu_total := pcpu_total |}))
    (Return None).

Definition get_user_stats (username : str) : Coro (option UserStat) :=
  upn ← lookup_upn username;
  lookup_stats username upn.

(* ===================================================================== *)
(** * The event loop *)
(* ===================================================================== *)

(** How a coroutine or the whole of [main] ends. *)
Inductive outcome (A : Type) : Type :=
  | Returned (a : A)
  | Raised (e : exn).

Arguments Returned {A} a.
Arguments Raised {A} e.

(** What the event loop has done so far: the commands whose process has
    ended, in the order they ended, and the texts given to [print]. *)
Record loop := {
  completed : list str;
  printed : list str
}.

Definition Main (A : Type) : Type := loop -> outcome A * loop.

#[global] Instance Main_ret : MRet Main := fun A a st => (Returned a, st).
#[global] Instance Main_bind : MBind Main := fun A B f m st =>
  match m st with
  | (Returned a, st') => f a st'
  | (Raised e, st') => (Raised e, st')
  end.

Definition print (s : str) : Main unit := fun st =>
  (Returned (), {| completed := completed st; printed := printed st ++ [s] |}).

(** The state of the event loop when [main] starts. *)
Definition fresh : loop := {| completed := []; printed := [] |}.

(** The text the calls of [print] leave on standard output. *)
Definition text_of (printed : list str) : str :=
  concat (map (fun s => s ++ NL) printed).

Section EventLoop.

(** The machine the script runs on: the process each shell command ends
    as. *)
Variable sys : str -> Process.

(** A coroutine run alone to its end, and the commands it runs. *)
Fixpoint run {A : Type} (p : Coro A) : outcome A :=
  match p with
  | Return a => Returned a
  | Raise e => Raised e
  | Shell c k => run (k (sys c))
  end.

Fixpoint commands {A : Type} (p : Coro A) : list str :=
  match p with
  | Shell c k => c :: commands (k (sys c))
  | _ => []
  end.

(** [await p] in [main], with nothing else in flight. *)
Definition await {A : Type} (p : Coro A) : Main A := fun st =>
  (run p, {| completed := completed st ++ commands p; printed := printed st |}).

(** *** [asyncio.gather]

    Every coroutine becomes a task; a task waiting for a command goes on
    when the process ends.  The order in which the processes of different
    tasks end is not the script's to choose: it is the schedule, a list of
    task indices.  A choice that names no waiting task changes nothing;
    when the schedule is used up the remaining commands end in task
    order. *)

(** The exception of the first task that has raised, if any: [gather]
    (without [return_exceptions]) raises it to the awaiting [main]. *)
Fixpoint raised {A : Type} (pool : list (Coro A)) : option exn :=
  match pool with
  | [] => None
  | Raise e :: _ => Some e
  | _ :: pool' => raised pool'
  end.

Fixpoint drain {A : Type} (pool : list (Coro A)) (log : list str)
  : outcome (list A) * list str :=
  match pool with
  | [] => (Returned [], log)
  | p :: pool' =>
    match run p with
    | Raised e => (Raised e, log ++ commands p)
    | Returned a =>
      match drain pool' (log ++ commands p) with
      | (Returned l, log') => (Returned (a :: l), log')
      | r => r
      end
    end
  end.

Fixpoint gather_loop {A : Type} (schedule : list nat) (pool : list (Coro A))
    (log : list str) : outcome (list A) * list str :=
  match raised pool with
  | Some e => (Raised e, log)
  | None =>
    match schedule with
    | [] => drain pool log
    | i :: schedule' =>
      match pool !! i with
      | Some (Shell c k) =>
        gather_loop schedule' (<[i := k (sys c)]> pool) (log ++ [c])
      | _ => gather_loop schedule' pool log
      end
    end
  end.

Variable schedule : list nat.

Definition gather {A : Type} (coros : list (Coro A)) : Main (list A) :=
  fun st =>
    let '(r, log) := gather_loop schedule coros (completed st) in
    (r, {| completed := log; printed := printed st |}).

(** ** [print_stats] and [main] *)

Definition header : str :=
  lit "Username" ++ TAB ++ lit "UPN" ++ TAB ++ lit "RSS Total" ++ TAB
  ++ lit "PMEM Total" ++ TAB ++ lit "PCPU Total".

(** [for stat in stats: print(stat.to_table_row())]. *)
Fixpoint print_rows (stats : list UserStat) : Main unit :=
  match stats with
  | [] => mret ()
  | stat :: stats' => print (to_table_row stat) ;; print_rows stats'
  end.

Definition print_stats (stats : list UserStat) (output_format : str)
  : Main unit :=
  if str_eqb output_format (lit "table") then
    print header ;; print_rows stats
  else if str_eqb output_format (lit "json") then
    print (json_dumps (VList (map dict_of stats)))
  else mret ().

(** [[stat for stat in user_stats if stat]]: [None] is false, a [UserStat]
    is true. *)
Fixpoint keep_truthy (user_stats : list (option UserStat)) : list UserStat :=
  match user_stats with
  | [] => []
  | Some stat :: r => stat :: keep_truthy r
  | None :: r => keep_truthy r
  end.

Definition group_command : str := lit "adquery group -m".

(** [main], after the argument parser: [output_format] is
    [args.output_format], which the parser restricts to [table] and
    [json]. *)
Definition main (output_format : str) : Main unit :=
  usernames ← await (run_command group_command);
  user_stats ← gather (map (fun username => get_user_stats (strip username))
                           (split_on LF (strip usernames)));
  print_stats (keep_truthy user_stats) output_format.

(** ** [asyncio.run(main())] as a process *)

(** What the run leaves behind: the exit status, the text on standard
    output, the uncaught exception the interpreter reports on standard
    error, and the commands that ran to their end. *)
Record report := {
  exit_status : Z;
  stdout : str;
  traceback : option exn;
  ran : list str
}.

Definition script (output_format : str) : report :=
  let '(r, st) := main output_format fresh in
  {| exit_status := match r with Returned _ => 0 | Raised _ => 1 end;
     stdout := text_of (printed st);
     traceback := match r with Returned _ => None | Raised e => Some e end;
     ran := completed st |}.

End EventLoop.

(* ===================================================================== *)
(** * Vocabulary of the statements *)
(* ===================================================================== *)

(** One collection, run to its end on the machine [sys]. *)
Definition collect (sys : str -> Process) (username : str)
  : outcome (option UserStat) :=
  run sys (get_user_stats username).

(** A line of the process table that the loop body accepts: exactly three
    tokens, the first an [int], the other two [float]s. *)
Definition parse_line (line : str) : option (Z * float * float) :=
  match split_ws line with
  | [rss; pmem; pcpu] =>
    n ← int_of_str rss;
    x ← float_of_str pmem;
    y ← float_of_str pcpu;
    Some (n, x, y)
  | _ => None
  end.

(** The lines the loop goes through. *)
Definition lines_of (process_stats : str) : list str :=
  split_on LF (strip process_stats).

(** The exact sum of integers, and the sum of floats from [0.0] in list
    order. *)
Definition Z_sum (l : list Z) : Z := foldr Z.add 0 l.
Definition float_sum (l : list float) : float := fold_left fadd l float_zero.

(** The float a decimal literal denotes. *)
Definition float_lit (s : string) : float :=
  default S754_nan (float_of_str (lit s)).
Arguments float_lit s%_string.

(** The stream [run_command] decodes is valid UTF-8: standard output after
    exit status zero, standard error otherwise. *)
Definition decodable (p : Process) : Prop :=
  is_Some (if returncode p =? 0 then decode (output p) else decode (error p)).

Definition is_digit (c : char) : Prop := (48 <= c <= 57)%N.


(** A key of a JSON object. *)
Definition json_key (name : string) : str := QUOTE ++ lit name ++ QUOTE.
Arguments json_key name%_string.

(** The usernames [main] collects, from the text of the group command. *)
Definition usernames_of (usernames : str) : list str :=
  map strip (split_on LF (strip usernames)).

(** The lines [print_stats] prints. *)
Definition report_lines (stats : list UserStat) (output_format : str)
  : list str :=
  (print_stats stats output_format fresh).2.(printed).

(** The record of a username, when its collection returns one. *)
Definition record_of (sys : str -> Process) (username : str)
  : option UserStat :=
  match collect sys username with
  | Returned r => r
  | Raised _ => None
  end.

(** The list [main] gives to [print_stats]: the records [gather] returns,
    without the absent ones. *)
Definition final_stats (sys : str -> Process) (schedule : list nat)
    (usernames : list str) : outcome (list UserStat) :=
  match (gather_loop sys schedule (map get_user_stats usernames) []).1 with
  | Returned user_stats => Returned (keep_truthy user_stats)
  | Raised e => Raised e
  end.

(** ** Machines for the examples *)

Definition succeeds (out : bytes) : Process :=
  {| returncode := 0; output := out; error := [] |}.

Definition fails (err : bytes) : Process :=
  {| returncode := 1; output := []; error := err |}.

(** A machine given by the commands it knows; any other command fails. *)
Fixpoint machine (known : list (str * Process)) (command : str) : Process :=
  match known with
  | [] => fails (blit "command not found")
  | (c, p) :: known' =>
    if str_eqb c command then p else machine known' command
  end.

(** Two users; alice has an identity and two processes, bob has no
    identity and one process. *)
Definition office : str -> Process :=
  machine
    [(group_command, succeeds (blit "alice" ++ [x0a] ++ blit "bob" ++ [x0a]));
     (identity_command (lit "alice"), succeeds (blit "alice@EXAMPLE"));
     (process_command (lit "alice"),
      succeeds (blit "100 1.5 2.0" ++ [x0a] ++ blit "200 0.5 1.0"));
     (identity_command (lit "bob"), fails (blit "bob is not a zone user"));
     (process_command (lit "bob"), succeeds (blit "7 0.1 0.2" ++ [x0a]))].

(** A machine on which one command ends differently. *)
Definition with_process (command : str) (p : Process)
    (sys : str -> Process) : str -> Process :=
  fun c => if str_eqb c command then p else sys c.

(** The office, but one line of bob's process table is malformed. *)
Definition office_malformed : str -> Process :=
  with_process (process_command (lit "bob"))
    (succeeds (blit "100 abc 2.0")) office.

(** The office, but bob's process lookup fails with an error message that
    is not UTF-8. *)
Definition office_garbled_ps : str -> Process :=
  with_process (process_command (lit "bob")) (fails [xff]) office.

(** The office, but bob's identity lookup fails with an error message that
    is not UTF-8. *)
Definition office_garbled_id : str -> Process :=
  with_process (identity_command (lit "bob")) (fails [xff]) office.

(** The office, but bob's process lookup succeeds with only a space and a
    newline on standard output. *)
Definition office_idle : str -> Process :=
  with_process (process_command (lit "bob"))
    (succeeds (blit " " ++ [x0a])) office.


(** The office, but the identity lookup of carol succeeds with an output
    that is not UTF-8 (her process lookup fails, as before). *)
Definition office_garbled_carol : str -> Process :=
  with_process (identity_command (lit "carol")) (succeeds [xff]) office.

(** A machine without the directory tools: every command fails. *)
Definition bare : str -> Process := machine [].

(** ** Vocabulary of the further properties *)

(** The identity a record holds, read off the process of the identity
    command: the trimmed standard output when the command succeeded and
    wrote anything, nothing otherwise. *)
Definition identity_of (sys : str -> Process) (username : str) : option str :=
  if returncode (sys (identity_command username)) =? 0
  then match decode (output (sys (identity_command username))) with
       | Some (c :: s) => Some (strip (c :: s))
       | _ => None
       end
  else None.



(** The office, but the identity lookup of alice succeeds and prints only
    a space and a newline. *)
Definition office_blank_id : str -> Process :=
  with_process (identity_command (lit "alice"))
    (succeeds (blit " " ++ [x0a])) office.

(** A printable ASCII character, and a Unicode code point. *)
Definition printable (c : char) : Prop := (32 <= c <= 126)%N.
Definition code_point (c : char) : Prop := (c < 1114112)%N.



(** The office, but the identity lookup of alice prints two lines. *)
Definition office_two_line_id : str -> Process :=
  with_process (identity_command (lit "alice"))
    (succeeds (blit "alice@EXAMPLE" ++ [x0a] ++ blit "admin" ++ [x0a]))
    office.

(** The texts of a record are Unicode. *)
Definition unicode_stat (stat : UserStat) : Prop :=
  Forall code_point (username stat)
  /\ forall s, upn stat = Some s -> Forall code_point s.

(** Bytes that are all ASCII, and a machine whose commands write nothing
    but ASCII on either stream. *)
Definition is_ascii (b : bytes) : bool :=
  forallb (fun x => (Byte.to_N x <? 128)%N) b.

Definition ascii_machine (sys : str -> Process) : Prop :=
  forall command,
    is_ascii (output (sys command)) = true
    /\ is_ascii (error (sys command)) = true.

(** The office, but alice has three processes, listed in one order and in
    the reverse order. *)
Definition office_abc : str -> Process :=
  with_process (process_command (lit "alice"))
    (succeeds (blit "1 0.1 0" ++ [x0a] ++ blit "2 0.2 0" ++ [x0a]
               ++ blit "3 0.3 0" ++ [x0a]))
    office.

Definition office_cba : str -> Process :=
  with_process (process_command (lit "alice"))
    (succeeds (blit "3 0.3 0" ++ [x0a] ++ blit "2 0.2 0" ++ [x0a]
               ++ blit "1 0.1 0" ++ [x0a]))
    office.

(* ===================================================================== *)
(** * Properties *)
(* ===================================================================== *)

(** Splits a conjunction into its parts, and nothing else. *)
Ltac conjuncts := repeat match goal with |- _ /\ _ => split end.

(** Closes a goal between closed terms by evaluation. *)
Ltac evaluate := vm_compute; first [reflexivity | discriminate].

(** A character that a literal text does not hold. *)
Ltac text_free :=
  match goal with
  | |- ?c ∉ ?s =>
    let c' := eval vm_compute in c in
    let s' := eval vm_compute in s in
    change (c' ∉ s')
  end;
  repeat (apply not_elem_of_cons; split; [discriminate |]);
  apply not_elem_of_nil.

(** ** The runtime fragment on sample inputs

    The values below are those CPython 3.11 gives. *)

Example decode_samples :
  decode (blit "alice") = Some (lit "alice")
  /\ decode [xc3; xa9; xe2; x82; xac; xf0; x9f; x98; x80]
     = Some [233; 8364; 128512]%N
  /\ decode [xff] = None
  /\ decode [xc0; x80] = None
  /\ decode [xed; xa0; x80] = None
  /\ decode [xe2; x82] = None.
Proof. conjuncts; evaluate. Qed.

Example strip_samples :
  strip (lit "  alice " ++ NL) = lit "alice"
  /\ strip ([31; 160; 8232]%N ++ lit "a b" ++ [12288]%N) = lit "a b"
  /\ strip (lit " " ++ NL) = []
  /\ strip [8203%N] = [8203%N].
Proof. conjuncts; evaluate. Qed.

Example split_samples :
  split_on LF [] = [[]]
  /\ split_on LF (lit "a" ++ NL) = [lit "a"; []]
  /\ split_on LF (lit "a" ++ NL ++ NL ++ lit "b") = [lit "a"; []; lit "b"]
  /\ split_ws [] = []
  /\ split_ws (lit "  100   1.5" ++ TAB ++ lit "2.0 ")
     = [lit "100"; lit "1.5"; lit "2.0"]
  /\ split_ws (lit "100 abc 2.0") = [lit "100"; lit "abc"; lit "2.0"].
Proof. conjuncts; evaluate. Qed.

Example int_samples :
  int_of_str (lit "100") = Some 100
  /\ int_of_str (lit "-7") = Some (-7)
  /\ int_of_str (lit "+007") = Some 7
  /\ int_of_str (lit "1_000") = Some 1000
  /\ int_of_str [1633; 1634]%N = Some 12
  /\ int_of_str (lit "1.5") = None
  /\ int_of_str (lit "abc") = None
  /\ int_of_str (lit "1__0") = None
  /\ int_of_str (lit "") = None.
Proof. conjuncts; evaluate. Qed.

Example float_samples :
  float_of_str (lit "2.0") = Some (S754_finite false 4503599627370496 (-51))
  /\ float_of_str (lit "1.5") = Some (S754_finite false 6755399441055744 (-52))
  /\ float_of_str (lit "0.1") = Some (S754_finite false 7205759403792794 (-56))
  /\ float_of_str (lit "2.675")
     = Some (S754_finite false 6023564501608038 (-51))
  /\ float_of_str (lit "1e22") = Some (S754_finite false 4768371582031250 21)
  /\ float_of_str (lit "5e-324") = Some (S754_finite false 1 (-1074))
  /\ float_of_str (lit "1e-400") = Some (S754_zero false)
  /\ float_of_str (lit "1e400") = Some (S754_infinity false)
  /\ float_of_str (lit "-Infinity") = Some (S754_infinity true)
  /\ float_of_str (lit "nan") = Some S754_nan
  /\ float_of_str (lit ".5e1") = float_of_str (lit "5")
  /\ float_of_str (lit "abc") = None
  /\ float_of_str (lit "1e") = None
  /\ float_of_str (lit "") = None.
Proof. conjuncts; evaluate. Qed.

Example fadd_samples :
  fadd (float_lit "1.5") (float_lit "0.5") = float_lit "2.0"
  /\ fadd (float_lit "0.1") (float_lit "0.2") = float_lit "0.30000000000000004"
  /\ fadd (float_lit "0.1") (float_lit "0.2") <> float_lit "0.3"
  /\ fadd float_zero (S754_zero true) = float_zero
  /\ fadd (float_lit "1e308") (float_lit "1e308") = S754_infinity false
  /\ fadd (S754_infinity false) (S754_infinity true) = S754_nan.
Proof. conjuncts; evaluate. Qed.

Example format_2f_samples :
  format_2f (float_lit "2.0") = lit "2.00"
  /\ format_2f (float_lit "0.125") = lit "0.12"
  /\ format_2f (float_lit "0.375") = lit "0.38"
  /\ format_2f (float_lit "2.675") = lit "2.67"
  /\ format_2f (float_lit "99.995") = lit "100.00"
  /\ format_2f (float_lit "-0.001") = lit "-0.00"
  /\ format_2f (float_lit "1e22") = lit "10000000000000000000000.00"
  /\ format_2f (float_lit "inf") = lit "inf"
  /\ format_2f (float_lit "nan") = lit "nan".
Proof. conjuncts; evaluate. Qed.

Example float_repr_samples :
  float_repr (float_lit "2.0") = lit "2.0"
  /\ float_repr (float_lit "0.1") = lit "0.1"
  /\ float_repr (float_lit "100") = lit "100.0"
  /\ float_repr (float_lit "0.0001") = lit "0.0001"
  /\ float_repr (float_lit "0.00001") = lit "1e-05"
  /\ float_repr (float_lit "1e16") = lit "1e+16"
  /\ float_repr (float_lit "123456789012345678") = lit "1.2345678901234568e+17"
  /\ float_repr (float_lit "5e-324") = lit "5e-324"
  /\ float_repr (float_lit "-0.0") = lit "-0.0"
  /\ Forall (fun x => float_of_str (float_repr x) = Some x)
            [float_lit "2.0"; float_lit "0.1"; float_lit "2.675";
             float_lit "1e22"; float_lit "5e-324"; float_lit "1e-7";
             fadd (float_lit "0.1") (float_lit "0.2");
             float_lit "1.7976931348623157e308"].
Proof.
  conjuncts;
    lazymatch goal with
    | |- Forall _ _ => repeat (apply List.Forall_cons; [evaluate |]);
                       apply List.Forall_nil
    | _ => evaluate
    end.
Qed.

Example json_samples :
  json_str (lit "alice@EXAMPLE") = QUOTE ++ lit "alice@EXAMPLE" ++ QUOTE
  /\ json_str (QUOTE ++ lit "\" ++ NL ++ [233; 128512]%N)
     = QUOTE ++ lit "\" ++ QUOTE ++ lit "\\\n\u00e9\ud83d\ude00" ++ QUOTE
  /\ json_dumps (VList []) = lit "[]"
  /\ json_dumps (VList [VNone; VInt (-5); VFloat S754_nan; VDict []])
     = lit "[null, -5, NaN, {}]".
Proof. conjuncts; evaluate. Qed.

(** ** Running coroutines *)

Section Running.

Variable sys : str -> Process.

Lemma run_bind {A B : Type} (p : Coro A) (f : A -> Coro B) :
  run sys (p ≫= f) =
  match run sys p with
  | Returned a => run sys (f a)
  | Raised e => Raised e
  end.
Proof.
  unfold mbind, Coro_bind.
  induction p as [a | e | c k IH]; simpl; auto.
Qed.

Lemma run_fmap {A B : Type} (f : A -> B) (p : Coro A) :
  run sys (f <$> p) =
  match run sys p with
  | Returned a => Returned (f a)
  | Raised e => Raised e
  end.
Proof.
  unfold fmap, Coro_fmap.
  induction p as [a | e | c k IH]; simpl; auto.
Qed.

Lemma run_except {A : Type} (body handler : Coro A) :
  run sys (except_CommandRunException body handler) =
  match run sys body with
  | Returned a => Returned a
  | Raised (CommandRunException _) => run sys handler
  | Raised e => Raised e
  end.
Proof.
  induction body as [a | e | c k IH]; simpl; auto.
  destruct e; reflexivity.
Qed.

Lemma commands_bind {A B : Type} (p : Coro A) (f : A -> Coro B) :
  commands sys (p ≫= f) =
  commands sys p ++
  match run sys p with
  | Returned a => commands sys (f a)
  | Raised _ => []
  end.
Proof.
  unfold mbind, Coro_bind.
  induction p as [a | e | c k IH]; simpl; auto.
  now rewrite IH.
Qed.

(** [run_command] spawns exactly one process, the one of its command. *)
Lemma commands_run_command (command : str) :
  commands sys (run_command command) = [command].
Proof.
  unfold run_command, decode_. simpl.
  destruct (returncode (sys command) =? 0); simpl.
  - destruct (decode (output (sys command))); reflexivity.
  - destruct (decode (error (sys command))); reflexivity.
Qed.

(** The three ways [run_command] ends. *)
Lemma run_command_zero (command out : str) :
  returncode (sys command) = 0 ->
  decode (output (sys command)) = Some out ->
  run sys (run_command command) = Returned out.
Proof.
  intros Hrc Hout. unfold run_command, decode_. simpl.
  rewrite Hrc, Hout. reflexivity.
Qed.

Lemma run_command_nonzero (command err : str) :
  returncode (sys command) <> 0 ->
  decode (error (sys command)) = Some err ->
  run sys (run_command command) =
  Raised (CommandRunException
            (lit "Error running command " ++ command ++ lit ": " ++ err)).
Proof.
  intros Hrc Herr. unfold run_command, decode_. simpl.
  apply Z.eqb_neq in Hrc. rewrite Hrc, Herr. reflexivity.
Qed.

Lemma run_command_undecodable (command : str) :
  (if returncode (sys command) =? 0
   then decode (output (sys command))
   else decode (error (sys command))) = None ->
  run sys (run_command command) = Raised UnicodeDecodeError.
Proof.
  unfold run_command, decode_. simpl.
  destruct (returncode (sys command) =? 0); simpl; intros ->; reflexivity.
Qed.

Lemma run_command_cases (command : str) :
  (exists out, returncode (sys command) = 0
     /\ decode (output (sys command)) = Some out
     /\ run sys (run_command command) = Returned out)
  \/ (exists err, returncode (sys command) <> 0
     /\ decode (error (sys command)) = Some err
     /\ run sys (run_command command) =
        Raised (CommandRunException
                  (lit "Error running command " ++ command ++ lit ": " ++ err)))
  \/ ((if returncode (sys command) =? 0
       then decode (output (sys command))
       else decode (error (sys command))) = None
     /\ run sys (run_command command) = Raised UnicodeDecodeError).
Proof.
  destruct (Z.eq_dec (returncode (sys command)) 0) as [Hrc | Hrc].
  - destruct (decode (output (sys command))) as [out |] eqn:Hd.
    + left. exists out. auto using run_command_zero.
    + right. right. split.
      * now rewrite Hrc, Z.eqb_refl.
      * apply run_command_undecodable. now rewrite Hrc, Z.eqb_refl.
  - destruct (decode (error (sys command))) as [err |] eqn:Hd.
    + right. left. exists err. auto using run_command_nonzero.
    + right. right. apply Z.eqb_neq in Hrc. split.
      * now rewrite Hrc.
      * apply run_command_undecodable. now rewrite Hrc.
Qed.

End Running.

(** ** The loop over the lines *)

Lemma for_lines_cons (line : str) (lines : list str) (a : Z) (b c : float) :
  for_lines (line :: lines) (a, b, c) =
  match parse_line line with
  | Some (n, x, y) => for_lines lines (a + n, fadd b x, fadd c y)
  | None => Raise ValueError
  end.
Proof.
  unfold parse_line. cbn [for_lines].
  destruct (split_ws line) as [| t1 [| t2 [| t3 [| t4 ts]]]]; try reflexivity.
  cbn. unfold int_, float_.
  destruct (int_of_str t1); cbn; [| reflexivity].
  destruct (float_of_str t2); cbn; [| reflexivity].
  destruct (float_of_str t3); cbn; reflexivity.
Qed.

Lemma for_lines_parsed (lines : list str) (rows : list (Z * float * float)) :
  mapM parse_line lines = Some rows ->
  forall (a : Z) (b c : float),
    for_lines lines (a, b, c) =
    Return (a + Z_sum (map (fun r => r.1.1) rows),
            fold_left fadd (map (fun r => r.1.2) rows) b,
            fold_left fadd (map (fun r => r.2) rows) c).
Proof.
  intros H. apply mapM_Some in H.
  induction H as [| line [[n x] y] lines rows Hline _ IH]; intros a b c.
  - cbn. now rewrite Z.add_0_r.
  - rewrite for_lines_cons, Hline, IH. cbn. now rewrite Z.add_assoc.
Qed.

Lemma for_lines_malformed (lines : list str) :
  mapM parse_line lines = None ->
  forall totals, for_lines lines totals = Raise ValueError.
Proof.
  induction lines as [| line lines IH]; intros H [[a b] c].
  - discriminate.
  - rewrite for_lines_cons.
    destruct (parse_line line) as [[[n x] y] |] eqn:Hline; [| reflexivity].
    apply IH. cbn in H. rewrite Hline in H. cbn in H.
    destruct (mapM parse_line lines); [discriminate | reflexivity].
Qed.

(** ** One collection *)

Section Collecting.

Variable sys : str -> Process.

Lemma collect_bind (username : str) :
  collect sys username =
  match run sys (lookup_upn username) with
  | Returned upn => run sys (lookup_stats username upn)
  | Raised e => Raised e
  end.
Proof. unfold collect, get_user_stats. apply run_bind. Qed.

(** The identity lookup: the text, nothing, or a decoding error. *)
Lemma lookup_upn_found (username out : str) :
  returncode (sys (identity_command username)) = 0 ->
  decode (output (sys (identity_command username))) = Some out ->
  run sys (lookup_upn username) = Returned (Some out).
Proof.
  intros Hrc Hd. unfold lookup_upn.
  rewrite run_except, run_fmap, (run_command_zero _ _ out) by assumption.
  reflexivity.
Qed.

Lemma lookup_upn_failed (username err : str) :
  returncode (sys (identity_command username)) <> 0 ->
  decode (error (sys (identity_command username))) = Some err ->
  run sys (lookup_upn username) = Returned None.
Proof.
  intros Hrc Hd. unfold lookup_upn.
  rewrite run_except, run_fmap, (run_command_nonzero _ _ err) by assumption.
  reflexivity.
Qed.

Lemma lookup_upn_decodable (username : str) :
  decodable (sys (identity_command username)) ->
  exists upn, run sys (lookup_upn username) = Returned upn.
Proof.
  intros [s Hs].
  destruct (Z.eq_dec (returncode (sys (identity_command username))) 0)
    as [Hrc | Hrc].
  - rewrite Hrc, Z.eqb_refl in Hs. eauto using lookup_upn_found.
  - pose proof Hrc as Hrc'. apply Z.eqb_neq in Hrc'. rewrite Hrc' in Hs.
    eauto using lookup_upn_failed.
Qed.

Lemma lookup_upn_undecodable (username : str) :
  ~ decodable (sys (identity_command username)) ->
  run sys (lookup_upn username) = Raised UnicodeDecodeError.
Proof.
  intros Hn. unfold lookup_upn.
  rewrite run_except, run_fmap, run_command_undecodable; [reflexivity |].
  unfold decodable in Hn.
  destruct (if returncode (sys (identity_command username)) =? 0
            then decode (output (sys (identity_command username)))
            else decode (error (sys (identity_command username)))); [| reflexivity].
  exfalso. apply Hn. eauto.
Qed.

(** The identity lookup never ends in another way. *)
Lemma lookup_upn_cases (username : str) :
  (exists upn, run sys (lookup_upn username) = Returned upn)
  \/ run sys (lookup_upn username) = Raised UnicodeDecodeError.
Proof.
  unfold lookup_upn. rewrite run_except, run_fmap.
  destruct (run_command_cases sys (identity_command username))
    as [(out & _ & _ & ->) | [(err & _ & _ & ->) | [_ ->]]]; eauto.
Qed.

(** The process lookup. *)
Lemma lookup_stats_failed (username err : str) (upn : option str) :
  returncode (sys (process_command username)) <> 0 ->
  decode (error (sys (process_command username))) = Some err ->
  run sys (lookup_stats username upn) = Returned None.
Proof.
  intros Hrc Hd. unfold lookup_stats.
  rewrite run_except, run_bind, (run_command_nonzero _ _ err) by assumption.
  reflexivity.
Qed.

Lemma lookup_stats_undecodable (username : str) (upn : option str) :
  ~ decodable (sys (process_command username)) ->
  run sys (lookup_stats username upn) = Raised UnicodeDecodeError.
Proof.
  intros Hn. unfold lookup_stats.
  rewrite run_except, run_bind, run_command_undecodable; [reflexivity |].
  unfold decodable in Hn.
  destruct (if returncode (sys (process_command username)) =? 0
            then decode (output (sys (process_command username)))
            else decode (error (sys (process_command username)))); [| reflexivity].
  exfalso. apply Hn. eauto.
Qed.

Lemma lookup_stats_parsed (username out : str) (upn : option str)
    (rows : list (Z * float * float)) :
  returncode (sys (process_command username)) = 0 ->
  decode (output (sys (process_command username))) = Some out ->
  mapM parse_line (lines_of out) = Some rows ->
  run sys (lookup_stats username upn) =
  Returned (Some {| username := username;
                    upn := strip_if_truthy upn;
                    rss_total := Z_sum (map (fun r => r.1.1) rows);
                    pmem_total := float_sum (map (fun r => r.1.2) rows);
                    pcpu_total := float_sum (map (fun r => r.2) rows) |}).
Proof.
  intros Hrc Hd Hrows. unfold lookup_stats.
  rewrite run_except, run_bind, (run_command_zero _ _ out) by assumption.
  fold (lines_of out).
  rewrite (for_lines_parsed _ rows Hrows). reflexivity.
Qed.

Lemma lookup_stats_malformed (username out : str) (upn : option str) :
  returncode (sys (process_command username)) = 0 ->
  decode (output (sys (process_command username))) = Some out ->
  mapM parse_line (lines_of out) = None ->
  run sys (lookup_stats username upn) = Raised ValueError.
Proof.
  intros Hrc Hd Hrows. unfold lookup_stats.
  rewrite run_except, run_bind, (run_command_zero _ _ out) by assumption.
  fold (lines_of out).
  rewrite (for_lines_malformed _ Hrows). reflexivity.
Qed.

End Collecting.

(** ** [gather]: the result does not depend on the schedule *)

Section Gathering.

Variable sys : str -> Process.
Context {A : Type}.

Implicit Types (pool : list (Coro A)) (schedule : list nat) (log : list str).

Lemma raised_elem pool (e : exn) : raised pool = Some e -> Raise e ∈ pool.
Proof.
  induction pool as [| p pool IH]; [discriminate |].
  destruct p as [a | e' | c k]; cbn; intros H.
  - right. auto.
  - injection H as ->. left.
  - right. auto.
Qed.

(** A task that has raised cannot be in a pool whose tasks all return. *)
Lemma raised_none_of_returns pool (vs : list A) :
  map (run sys) pool = map Returned vs -> raised pool = None.
Proof.
  intros H. destruct (raised pool) as [e |] eqn:He; [| reflexivity].
  apply raised_elem in He.
  apply (list_elem_of_fmap_2 (run sys)) in He.
  change (run sys <$> pool) with (map (run sys) pool) in He.
  rewrite H in He.
  apply list_elem_of_fmap_1 in He as (v & Hv & _). discriminate.
Qed.

(** Letting a task go on with the process it waited for changes no task's
    outcome. *)
Lemma run_resume pool (i : nat) (c : str) (k : Process -> Coro A) :
  pool !! i = Some (Shell c k) ->
  map (run sys) (<[i := k (sys c)]> pool) = map (run sys) pool.
Proof.
  intros Hi.
  change (run sys <$> <[i := k (sys c)]> pool = run sys <$> pool).
  rewrite list_fmap_insert. apply list_insert_id.
  rewrite list_lookup_fmap, Hi. reflexivity.
Qed.

Lemma resume_elem pool (i : nat) (c : str) (k : Process -> Coro A)
    (p : Coro A) (e : exn) :
  pool !! i = Some (Shell c k) ->
  p ∈ <[i := k (sys c)]> pool -> run sys p = Raised e ->
  exists q, q ∈ pool /\ run sys q = Raised e.
Proof.
  intros Hi Hp Hrun.
  apply list_elem_of_lookup_1 in Hp as [j Hj].
  destruct (decide (i = j)) as [<- | Hne].
  - exists (Shell c k). split; [eauto using list_elem_of_lookup_2 |].
    rewrite list_lookup_insert_eq in Hj by eauto using lookup_lt_Some.
    injection Hj as <-. exact Hrun.
  - rewrite list_lookup_insert_ne in Hj by assumption.
    eauto using list_elem_of_lookup_2.
Qed.

Lemma drain_returns pool (vs : list A) :
  map (run sys) pool = map Returned vs ->
  forall log, (drain sys pool log).1 = Returned vs.
Proof.
  revert vs. induction pool as [| p pool IH]; intros [| v vs] H log;
    try discriminate; [reflexivity |].
  cbn in H. injection H as Hp Hpool. cbn. rewrite Hp.
  specialize (IH vs Hpool (log ++ commands sys p)).
  destruct (drain sys pool (log ++ commands sys p)) as [r log'].
  cbn in IH. subst r. reflexivity.
Qed.

Lemma drain_returned_inv pool log (vs : list A) :
  (drain sys pool log).1 = Returned vs ->
  map (run sys) pool = map Returned vs.
Proof.
  revert log vs. induction pool as [| p pool IH]; intros log vs H; cbn in H.
  - injection H as <-. reflexivity.
  - destruct (run sys p) as [a | e] eqn:Hp; [| discriminate].
    specialize (IH (log ++ commands sys p)).
    destruct (drain sys pool (log ++ commands sys p)) as [[l | e] log'];
      [| discriminate].
    cbn in H. injection H as <-. cbn. rewrite Hp. f_equal. now apply IH.
Qed.

Lemma drain_raised_inv pool log (e : exn) :
  (drain sys pool log).1 = Raised e ->
  exists p, p ∈ pool /\ run sys p = Raised e.
Proof.
  revert log. induction pool as [| p pool IH]; intros log H; cbn in H.
  - discriminate.
  - destruct (run sys p) as [a | e'] eqn:Hp.
    + specialize (IH (log ++ commands sys p)).
      destruct (drain sys pool (log ++ commands sys p)) as [[l | e'] log'];
        [discriminate |].
      cbn in H. injection H as ->.
      destruct (IH eq_refl) as (q & Hq & Hrun).
      exists q. split; [right |]; assumption.
    + cbn in H. injection H as ->. exists p. split; [left | assumption].
Qed.

(** When every task returns, [gather] returns their values in task order,
    whatever the schedule. *)
Lemma gather_loop_returns schedule : forall pool (vs : list A) log,
  map (run sys) pool = map Returned vs ->
  (gather_loop sys schedule pool log).1 = Returned vs.
Proof.
  induction schedule as [| i schedule IH]; intros pool vs log H; cbn;
    rewrite (raised_none_of_returns pool vs H).
  - now apply drain_returns.
  - destruct (pool !! i) as [[a | e | c k] |] eqn:Hi; try now apply IH.
    apply IH. now rewrite (run_resume pool i c k Hi).
Qed.

Lemma gather_loop_returned_inv schedule : forall pool log (vs : list A),
  (gather_loop sys schedule pool log).1 = Returned vs ->
  map (run sys) pool = map Returned vs.
Proof.
  induction schedule as [| i schedule IH]; intros pool log vs H; cbn in H;
    destruct (raised pool) as [e |] eqn:He; try discriminate.
  - eauto using drain_returned_inv.
  - destruct (pool !! i) as [[a | e | c k] |] eqn:Hi; eauto.
    rewrite <- (run_resume pool i c k Hi). eauto.
Qed.

(** An exception raised by [gather] is the exception of one of its tasks. *)
Lemma gather_loop_raised_inv schedule : forall pool log (e : exn),
  (gather_loop sys schedule pool log).1 = Raised e ->
  exists p, p ∈ pool /\ run sys p = Raised e.
Proof.
  induction schedule as [| i schedule IH]; intros pool log e H; cbn in H;
    destruct (raised pool) as [e' |] eqn:He.
  - injection H as ->. eauto using raised_elem.
  - eauto using drain_raised_inv.
  - injection H as ->. eauto using raised_elem.
  - destruct (pool !! i) as [[a | e' | c k] |] eqn:Hi; eauto.
    apply IH in H as (p & Hp & Hrun). eauto using resume_elem.
Qed.

(** When a task raises, [gather] raises, whatever the schedule. *)
Lemma gather_loop_raises schedule pool log (p : Coro A) (e : exn) :
  p ∈ pool -> run sys p = Raised e ->
  exists e', (gather_loop sys schedule pool log).1 = Raised e'.
Proof.
  intros Hp Hrun.
  destruct (gather_loop sys schedule pool log).1 as [vs | e'] eqn:Hg; eauto.
  apply gather_loop_returned_inv in Hg.
  apply (list_elem_of_fmap_2 (run sys)) in Hp.
  change (run sys <$> pool) with (map (run sys) pool) in Hp.
  rewrite Hg, Hrun in Hp.
  apply list_elem_of_fmap_1 in Hp as (v & Hv & _). discriminate.
Qed.

End Gathering.

(** ** Printing *)

Lemma print_rows_run (stats : list UserStat) : forall st : loop,
  print_rows stats st =
  (Returned (), {| completed := completed st;
                   printed := printed st ++ map to_table_row stats |}).
Proof.
  induction stats as [| stat stats IH]; intros [done out]; cbn.
  - now rewrite app_nil_r.
  - unfold mbind, Main_bind. cbn. rewrite IH. cbn.
    now rewrite <- app_assoc.
Qed.

Lemma print_stats_run (stats : list UserStat) (output_format : str)
    (st : loop) :
  print_stats stats output_format st =
  (Returned (), {| completed := completed st;
                   printed := printed st ++ report_lines stats output_format |}).
Proof.
  unfold report_lines, print_stats.
  destruct (str_eqb output_format (lit "table")).
  - unfold mbind, Main_bind, print. rewrite !print_rows_run.
    cbn [fst snd printed completed fresh app]. now rewrite <- app_assoc.
  - destruct (str_eqb output_format (lit "json")); cbn.
    + reflexivity.
    + destruct st. cbn. now rewrite app_nil_r.
Qed.


Lemma report_lines_json (stats : list UserStat) :
  report_lines stats (lit "json") = [json_dumps (VList (map dict_of stats))].
Proof. reflexivity. Qed.

(** ** The whole run *)

Section Script.

Variable sys : str -> Process.
Variable schedule : list nat.

Lemma main_tasks (usernames : str) :
  map (fun username => get_user_stats (strip username))
      (split_on LF (strip usernames))
  = map get_user_stats (usernames_of usernames).
Proof. unfold usernames_of. now rewrite map_map. Qed.

(** The group command fails: nothing else runs and nothing is printed. *)
Lemma script_group_raised (output_format : str) (e : exn) :
  run sys (run_command group_command) = Raised e ->
  script sys schedule output_format =
  {| exit_status := 1; stdout := []; traceback := Some e;
     ran := [group_command] |}.
Proof.
  intros H. unfold script, main, mbind, Main_bind, await.
  rewrite H, commands_run_command. reflexivity.
Qed.

(** A collection raises: the run ends with the exception of some task and
    nothing is printed. *)
Lemma script_collect_raised (output_format usernames username : str)
    (e : exn) :
  run sys (run_command group_command) = Returned usernames ->
  username ∈ usernames_of usernames ->
  collect sys username = Raised e ->
  exists e' log,
    script sys schedule output_format =
    {| exit_status := 1; stdout := []; traceback := Some e'; ran := log |}.
Proof.
  intros Hg Hin He.
  destruct (gather_loop_raises sys schedule
              (map get_user_stats (usernames_of usernames))
              (completed fresh ++ commands sys (run_command group_command))
              (get_user_stats username) e) as [e' He'].
  { now apply (list_elem_of_fmap_2 get_user_stats). }
  { exact He. }
  unfold script, main, mbind, Main_bind, await, gather.
  rewrite Hg, main_tasks. cbn [printed completed].
  destruct (gather_loop _ _ _ _) as [r log]. cbn in He'. subst r.
  exists e', log. reflexivity.
Qed.

(** Every collection returns: the run prints the records, in the order of
    the usernames. *)
Lemma script_collected (output_format usernames : str)
    (vs : list (option UserStat)) :
  run sys (run_command group_command) = Returned usernames ->
  map (collect sys) (usernames_of usernames) = map Returned vs ->
  exists log,
    script sys schedule output_format =
    {| exit_status := 0;
       stdout := text_of (report_lines (keep_truthy vs) output_format);
       traceback := None; ran := log |}.
Proof.
  intros Hg Hvs.
  pose proof (gather_loop_returns sys schedule
                (map get_user_stats (usernames_of usernames)) vs
                (completed fresh ++ commands sys (run_command group_command)))
    as Hr.
  unfold script, main, mbind, Main_bind, await, gather.
  rewrite Hg, main_tasks. cbn [printed completed].
  destruct (gather_loop _ _ _ _) as [r log]. cbn in Hr.
  rewrite Hr by (rewrite map_map; exact Hvs).
  rewrite print_stats_run. cbn. eauto.
Qed.

End Script.


(** ** The list given to [print_stats] *)

Lemma keep_truthy_map {X : Type} (f : X -> option UserStat) (l : list X) :
  keep_truthy (map f l) = omap f l.
Proof.
  induction l as [| x l IH]; [reflexivity |].
  cbn. destruct (f x); cbn; now rewrite IH.
Qed.

Section FinalStats.

Variable sys : str -> Process.

Lemma collect_all_returned (usernames : list str) :
  (forall u, u ∈ usernames -> exists r, collect sys u = Returned r) ->
  map (collect sys) usernames = map Returned (map (record_of sys) usernames).
Proof.
  induction usernames as [| u usernames IH]; intros H; [reflexivity |].
  cbn. f_equal.
  - destruct (H u) as [r Hr]; [left |]. unfold record_of. now rewrite Hr.
  - apply IH. intros v Hv. apply H. now right.
Qed.

Lemma final_stats_returns (schedule : list nat) (usernames : list str) :
  (forall u, u ∈ usernames -> exists r, collect sys u = Returned r) ->
  final_stats sys schedule usernames =
  Returned (omap (record_of sys) usernames).
Proof.
  intros H. unfold final_stats.
  rewrite (gather_loop_returns sys schedule _
             (map (record_of sys) usernames)).
  - now rewrite keep_truthy_map.
  - rewrite map_map. now apply collect_all_returned.
Qed.

Lemma final_stats_raises (schedule : list nat) (usernames : list str)
    (username : str) (e : exn) :
  username ∈ usernames -> collect sys username = Raised e ->
  exists e', final_stats sys schedule usernames = Raised e'.
Proof.
  intros Hin He. unfold final_stats.
  destruct (gather_loop_raises sys schedule (map get_user_stats usernames) []
              (get_user_stats username) e) as [e' He'].
  { now apply (list_elem_of_fmap_2 get_user_stats). }
  { exact He. }
  rewrite He'. eauto.
Qed.

Lemma final_stats_raised_inv (schedule : list nat) (usernames : list str)
    (e : exn) :
  final_stats sys schedule usernames = Raised e ->
  exists u, u ∈ usernames /\ collect sys u = Raised e.
Proof.
  unfold final_stats. intros H.
  destruct (gather_loop sys schedule (map get_user_stats usernames) []).1
    as [vs | e'] eqn:Hg; [discriminate |].
  injection H as ->.
  apply gather_loop_raised_inv in Hg as (p & Hp & Hrun).
  apply (list_elem_of_fmap_1 get_user_stats) in Hp as (u & -> & Hu).
  eauto.
Qed.

(** Either every collection returns or one of them raises. *)
Lemma final_stats_cases (schedule : list nat) (usernames : list str) :
  (forall u, u ∈ usernames -> exists r, collect sys u = Returned r)
  \/ exists u e, u ∈ usernames /\ collect sys u = Raised e.
Proof.
  destruct (final_stats sys schedule usernames) as [l | e] eqn:H.
  - left. intros u Hu.
    destruct (collect sys u) as [r | e] eqn:Hc; [eauto |].
    destruct (final_stats_raises schedule usernames u e Hu Hc) as [e' He'].
    congruence.
  - right. apply final_stats_raised_inv in H as (u & Hu & Hc). eauto.
Qed.

(** The run prints the report of that list. *)
Lemma script_final_stats (schedule : list nat) (output_format usernames : str) :
  run sys (run_command group_command) = Returned usernames ->
  (forall u, u ∈ usernames_of usernames ->
             exists r, collect sys u = Returned r) ->
  exists log,
    script sys schedule output_format =
    {| exit_status := 0;
       stdout :=
         text_of (report_lines (omap (record_of sys) (usernames_of usernames))
                               output_format);
       traceback := None; ran := log |}.
Proof.
  intros Hg Hall.
  destruct (script_collected sys schedule output_format usernames
              (map (record_of sys) (usernames_of usernames)) Hg
              (collect_all_returned _ Hall)) as [log Hlog].
  exists log. now rewrite Hlog, keep_truthy_map.
Qed.

End FinalStats.

(** ** Whitespace *)

Lemma lstrip_spaces (s : str) :
  Forall (fun c => isspace c = true) s -> lstrip s = [].
Proof.
  induction 1 as [| c s Hc _ IH]; [reflexivity |].
  cbn. now rewrite Hc.
Qed.

Lemma strip_spaces (s : str) :
  Forall (fun c => isspace c = true) s -> strip s = [].
Proof. intros H. unfold strip, rstrip. now rewrite (lstrip_spaces s H). Qed.

(** ** A malformed process table *)

Section Malformed.

Variable sys : str -> Process.

Lemma collect_malformed (username out : str) :
  returncode (sys (process_command username)) = 0 ->
  decode (output (sys (process_command username))) = Some out ->
  mapM parse_line (lines_of out) = None ->
  (forall upn, run sys (lookup_stats username upn) = Raised ValueError)
  /\ (decodable (sys (identity_command username)) ->
      collect sys username = Raised ValueError)
  /\ (exists e, collect sys username = Raised e
                /\ (e = ValueError \/ e = UnicodeDecodeError)).
Proof.
  intros Hrc Hd Hrows.
  assert (Hstats : forall upn,
             run sys (lookup_stats username upn) = Raised ValueError).
  { intros upn. now apply lookup_stats_malformed with (out := out). }
  split; [exact Hstats |]. split.
  - intros Hid. rewrite collect_bind.
    destruct (lookup_upn_decodable sys username Hid) as [upn ->]. apply Hstats.
  - rewrite collect_bind.
    destruct (lookup_upn_cases sys username) as [[upn ->] | ->]; eauto.
Qed.

Lemma script_aborted (schedule : list nat)
    (output_format usernames username : str) (e : exn) :
  run sys (run_command group_command) = Returned usernames ->
  username ∈ usernames_of usernames ->
  collect sys username = Raised e ->
  exit_status (script sys schedule output_format) = 1
  /\ stdout (script sys schedule output_format) = []
  /\ exists e', traceback (script sys schedule output_format) = Some e'.
Proof.
  intros Hg Hin He.
  destruct (script_collect_raised sys schedule output_format usernames
              username e Hg Hin He) as (e' & log & ->).
  cbn. eauto.
Qed.

End Malformed.

(** ** The table *)

Lemma uint_chars_digits (d : Decimal.uint) : Forall is_digit (uint_chars d).
Proof.
  induction d; cbn; constructor; try assumption; unfold is_digit; lia.
Qed.

Lemma uint_chars_nonnil (d : Decimal.uint) :
  d <> Decimal.Nil -> uint_chars d <> [].
Proof. destruct d; intros H; try discriminate. contradiction. Qed.

Lemma str_of_N_digits (n : N) :
  str_of_N n <> [] /\ Forall is_digit (str_of_N n).
Proof.
  split; [| apply uint_chars_digits].
  apply uint_chars_nonnil. destruct n as [| p]; [discriminate |].
  apply Unsigned.to_uint_nonnil.
Qed.





(** ** The structured report *)

Lemma json_dumps_dict_of (stat : UserStat) :
  json_dumps (dict_of stat) =
  lit "{"
  ++ json_key "username" ++ lit ": " ++ json_str (username stat) ++ lit ", "
  ++ json_key "upn" ++ lit ": "
  ++ match upn stat with
     | Some s => json_str s
     | None => lit "null"
     end ++ lit ", "
  ++ json_key "rss_total" ++ lit ": " ++ str_of_int (rss_total stat)
  ++ lit ", "
  ++ json_key "pmem_total" ++ lit ": " ++ json_float (pmem_total stat)
  ++ lit ", "
  ++ json_key "pcpu_total" ++ lit ": " ++ json_float (pcpu_total stat)
  ++ lit "}".
Proof.
  destruct stat as [u i r pm pc]. unfold dict_of.
  cbn [json_dumps map join fst snd username upn rss_total pmem_total
       pcpu_total].
  change (json_str (lit "username")) with (json_key "username").
  change (json_str (lit "upn")) with (json_key "upn").
  change (json_str (lit "rss_total")) with (json_key "rss_total").
  change (json_str (lit "pmem_total")) with (json_key "pmem_total").
  change (json_str (lit "pcpu_total")) with (json_key "pcpu_total").
  replace (json_dumps match i with Some s => VStr s | None => VNone end)
    with (match i with Some s => json_str s | None => lit "null" end)
    by (destruct i; reflexivity).
  rewrite <- !app_assoc. reflexivity.
Qed.

Lemma json_dumps_list (l : list value) :
  json_dumps (VList l) = lit "[" ++ join (lit ", ") (map json_dumps l) ++ lit "]".
Proof. reflexivity. Qed.

(** ** The commands of a run *)

Section Commands.

Variable sys : str -> Process.

(** The commands of a collection: the identity lookup, then, unless that
    raised, the process lookup. *)
Lemma commands_except {A : Type} (body handler : Coro A) :
  commands sys (except_CommandRunException body handler) =
  commands sys body ++
  match run sys body with
  | Raised (CommandRunException _) => commands sys handler
  | _ => []
  end.
Proof.
  induction body as [a | e | c k IH]; cbn.
  - reflexivity.
  - destruct e; cbn; now rewrite ?app_nil_r.
  - now rewrite IH.
Qed.

Lemma commands_fmap {A B : Type} (f : A -> B) (p : Coro A) :
  commands sys (f <$> p) = commands sys p.
Proof.
  unfold fmap, Coro_fmap.
  induction p as [a | e | c k IH]; cbn; auto. now rewrite IH.
Qed.

Lemma commands_for_lines (lines : list str) : forall totals,
  commands sys (for_lines lines totals) = [].
Proof.
  induction lines as [| line lines IH]; intros [[a b] c]; [reflexivity |].
  rewrite for_lines_cons.
  destruct (parse_line line) as [[[n x] y] |]; [apply IH | reflexivity].
Qed.

Lemma commands_lookup_upn (username : str) :
  commands sys (lookup_upn username) = [identity_command username].
Proof.
  unfold lookup_upn.
  rewrite commands_except, commands_fmap, commands_run_command.
  destruct (run sys (Some <$> run_command (identity_command username)))
    as [a | []]; reflexivity.
Qed.

Lemma commands_lookup_stats (username : str) (upn : option str) :
  commands sys (lookup_stats username upn) = [process_command username].
Proof.
  unfold lookup_stats.
  rewrite commands_except, commands_bind, commands_run_command.
  assert (Hpure : forall s : str,
             commands sys
               ('(rss_total, pmem_total, pcpu_total) ←
                  for_lines (split_on LF (strip s)) (0, float_zero, float_zero);
                Return (Some {| username := username;
                                upn := strip_if_truthy upn;
                                rss_total := rss_total;
                                pmem_total := pmem_total;
                                pcpu_total := pcpu_total |})) = []).
  { intros s. rewrite commands_bind, commands_for_lines.
    destruct (run sys (for_lines _ _)) as [[[a b] c] | e]; reflexivity. }
  destruct (run sys (run_command (process_command username))) as [s | e];
    cbn [app]; rewrite ?Hpure;
    match goal with
    | |- context [match ?r with Returned _ => _ | Raised _ => _ end] =>
      destruct r as [? | []]; reflexivity
    end.
Qed.

Lemma commands_get_user_stats (username : str) :
  commands sys (get_user_stats username) =
  identity_command username ::
  match run sys (lookup_upn username) with
  | Returned _ => [process_command username]
  | Raised _ => []
  end.
Proof.
  unfold get_user_stats.
  rewrite commands_bind, commands_lookup_upn.
  destruct (run sys (lookup_upn username)) as [upn | e]; [| reflexivity].
  now rewrite commands_lookup_stats.
Qed.

(** The commands of all the tasks of a pool. *)
Context {A : Type}.

Implicit Types (pool : list (Coro A)) (log : list str).

Lemma pool_commands_resume pool (i : nat) (c : str) (k : Process -> Coro A) :
  pool !! i = Some (Shell c k) ->
  concat (map (commands sys) pool)
  ≡ₚ c :: concat (map (commands sys) (<[i := k (sys c)]> pool)).
Proof.
  intros Hi.
  rewrite <- (take_drop_middle pool i (Shell c k) Hi) at 1.
  rewrite insert_take_drop by eauto using lookup_lt_Some.
  rewrite !map_app, !concat_app. cbn.
  now rewrite <- Permutation_middle.
Qed.

Lemma drain_log_returned pool log (vs : list A) :
  (drain sys pool log).1 = Returned vs ->
  (drain sys pool log).2 = log ++ concat (map (commands sys) pool).
Proof.
  revert log vs. induction pool as [| p pool IH]; intros log vs H; cbn in *.
  - now rewrite app_nil_r.
  - destruct (run sys p) as [a | e]; [| discriminate].
    specialize (IH (log ++ commands sys p)).
    destruct (drain sys pool (log ++ commands sys p)) as [[l | e] log'];
      [| discriminate].
    cbn in *. rewrite (IH l eq_refl). now rewrite <- app_assoc.
Qed.

(** When [gather] returns, every command of every task has run once. *)
Lemma gather_loop_log_returned (schedule : list nat) :
  forall pool log (vs : list A),
    (gather_loop sys schedule pool log).1 = Returned vs ->
    (gather_loop sys schedule pool log).2
    ≡ₚ log ++ concat (map (commands sys) pool).
Proof.
  induction schedule as [| i schedule IH]; intros pool log vs H; cbn in *;
    destruct (raised pool) as [e |]; try discriminate.
  - now rewrite (drain_log_returned pool log vs H).
  - destruct (pool !! i) as [[a | e | c k] |] eqn:Hi; eauto.
    rewrite (IH _ _ vs H), (pool_commands_resume pool i c k Hi).
    rewrite <- app_assoc. cbn. reflexivity.
Qed.

End Commands.

Section RunCommands.

Variable sys : str -> Process.

Lemma drain_log_subset {A : Type} (pool : list (Coro A)) : forall log,
  exists new,
    (drain sys pool log).2 = log ++ new
    /\ forall c, c ∈ new -> c ∈ concat (map (commands sys) pool).
Proof.
  induction pool as [| p pool IH]; intros log; cbn.
  - exists []. split; [now rewrite app_nil_r | intros c Hc; inversion Hc].
  - destruct (run sys p) as [a | e].
    + destruct (IH (log ++ commands sys p)) as (new & Hnew & Hsub).
      destruct (drain sys pool (log ++ commands sys p)) as [[l | e] log'];
        cbn in *; subst log'; exists (commands sys p ++ new);
        (split; [now rewrite app_assoc |]);
        intros c Hc; apply elem_of_app in Hc as [Hc | Hc];
        apply elem_of_app; auto.
    + exists (commands sys p). split; [reflexivity |].
      intros c Hc. apply elem_of_app. auto.
Qed.

(** Whatever the schedule, [gather] only adds commands of its tasks to the
    log. *)
Lemma gather_loop_log_subset {A : Type} (schedule : list nat) :
  forall (pool : list (Coro A)) log,
  exists new,
    (gather_loop sys schedule pool log).2 = log ++ new
    /\ forall c, c ∈ new -> c ∈ concat (map (commands sys) pool).
Proof.
  induction schedule as [| i schedule IH]; intros pool log; cbn;
    destruct (raised pool) as [e |].
  - exists []. split; [now rewrite app_nil_r | intros c Hc; inversion Hc].
  - apply drain_log_subset.
  - exists []. split; [now rewrite app_nil_r | intros c Hc; inversion Hc].
  - destruct (pool !! i) as [[a | e | c k] |] eqn:Hi; try apply IH.
    destruct (IH (<[i := k (sys c)]> pool) (log ++ [c]))
      as (new & Hnew & Hsub).
    exists (c :: new). split; [now rewrite Hnew, <- app_assoc |].
    intros c' Hc'. rewrite (pool_commands_resume sys pool i c k Hi).
    apply elem_of_cons in Hc' as [-> | Hc']; [left | right; auto].
Qed.

Lemma script_ran (schedule : list nat) (output_format usernames : str) :
  run sys (run_command group_command) = Returned usernames ->
  ran (script sys schedule output_format) =
  (gather_loop sys schedule (map get_user_stats (usernames_of usernames))
     [group_command]).2.
Proof.
  intros Hg. unfold script, main, mbind, Main_bind, await, gather.
  rewrite Hg, main_tasks, commands_run_command. cbn [printed completed fresh app].
  destruct (gather_loop _ _ _ _) as [[vs | e] log]; [| reflexivity].
  now rewrite print_stats_run.
Qed.

Lemma collection_command (usernames : list str) (c : str) :
  c ∈ concat (map (commands sys) (map get_user_stats usernames)) ->
  exists u, u ∈ usernames
            /\ (c = identity_command u \/ c = process_command u).
Proof.
  induction usernames as [| u usernames IH]; cbn [map concat]; intros Hc.
  - inversion Hc.
  - apply elem_of_app in Hc as [Hc | Hc].
    + exists u. split; [left |].
      rewrite commands_get_user_stats in Hc.
      apply elem_of_cons in Hc as [-> | Hc]; [auto |].
      destruct (run sys (lookup_upn u)); [| inversion Hc].
      apply list_elem_of_singleton in Hc as ->. auto.
    + destruct (IH Hc) as (v & Hv & Hcv). exists v. split; [right |]; auto.
Qed.

End RunCommands.

(* ===================================================================== *)
(** * The claims *)
(* ===================================================================== *)

(** ** Malformed lines *)

(** C1, as the script has it.  When the process lookup of a username
    succeeds but some line of its output does not split into exactly three
    tokens, or a token fails its conversion, the lookup block raises
    [ValueError], which the script does not catch: the collection raises
    it (or the decoding error of the identity lookup, if that came first)
    instead of returning no record, and any run whose group lists the
    username ends with exit status 1 and prints nothing, for no user. *)
Theorem malformed_line_aborts_run (sys : str -> Process)
    (username out : str) :
  returncode (sys (process_command username)) = 0 ->
  decode (output (sys (process_command username))) = Some out ->
  Exists (fun line => parse_line line = None) (lines_of out) ->
  (forall upn, run sys (lookup_stats username upn) = Raised ValueError)
  /\ (decodable (sys (identity_command username)) ->
      collect sys username = Raised ValueError)
  /\ (exists e, collect sys username = Raised e
                /\ (e = ValueError \/ e = UnicodeDecodeError))
  /\ forall (schedule : list nat) (output_format usernames : str),
       run sys (run_command group_command) = Returned usernames ->
       username ∈ usernames_of usernames ->
       exit_status (script sys schedule output_format) = 1
       /\ stdout (script sys schedule output_format) = []
       /\ exists e, traceback (script sys schedule output_format) = Some e.
Proof.
  intros Hrc Hd Hbad. apply mapM_None_2 in Hbad.
  destruct (collect_malformed sys username out Hrc Hd Hbad)
    as (Hstats & Hid & e & He & Hcases).
  split; [exact Hstats |]. split; [exact Hid |]. split; [eauto |].
  intros schedule output_format usernames Hg Hin.
  now apply (script_aborted sys schedule output_format usernames username e).
Qed.

(** C1 on the office whose process table of bob holds [100 abc 2.0]. *)
Lemma malformed_line_aborts_run_office :
  returncode (office_malformed (process_command (lit "bob"))) = 0
  /\ decode (output (office_malformed (process_command (lit "bob"))))
     = Some (lit "100 abc 2.0")
  /\ Exists (fun line => parse_line line = None) (lines_of (lit "100 abc 2.0"))
  /\ collect office_malformed (lit "bob") = Raised ValueError
  /\ exit_status (script office_malformed [] (lit "table")) = 1
  /\ stdout (script office_malformed [] (lit "table")) = [].
Proof.
  assert (Hrc : returncode (office_malformed (process_command (lit "bob"))) = 0)
    by reflexivity.
  assert (Hd : decode (output (office_malformed (process_command (lit "bob"))))
               = Some (lit "100 abc 2.0")) by evaluate.
  assert (Hbad : Exists (fun line => parse_line line = None)
                        (lines_of (lit "100 abc 2.0")))
    by (left; evaluate).
  destruct (malformed_line_aborts_run office_malformed (lit "bob")
              (lit "100 abc 2.0") Hrc Hd Hbad) as (_ & Hid & _ & Hrun).
  destruct (Hrun [] (lit "table") (lit "alice" ++ NL ++ lit "bob" ++ NL))
    as (Hexit & Hout & _).
  { evaluate. }
  { vm_compute. right. left. }
  split; [exact Hrc |]. split; [exact Hd |]. split; [exact Hbad |].
  split; [apply Hid; eexists; evaluate |].
  split; assumption.
Defined.

(** C1, as the claim has it, fails on that office: the collection of bob
    raises [ValueError] instead of returning no record, and the run, which
    the claim expects to print the record of alice, prints nothing and
    ends with exit status 1, although the collection of alice alone
    returns her record. *)
Lemma malformed_line_is_not_dropped :
  collect office_malformed (lit "bob") = Raised ValueError
  /\ collect office_malformed (lit "bob") <> Returned None
  /\ collect office_malformed (lit "alice") =
     Returned (Some {| username := lit "alice";
                       upn := Some (lit "alice@EXAMPLE");
                       rss_total := 300;
                       pmem_total := float_lit "2.0";
                       pcpu_total := float_lit "3.0" |})
  /\ script office_malformed [] (lit "table") =
     {| exit_status := 1; stdout := []; traceback := Some ValueError;
        ran := [group_command;
                identity_command (lit "alice");
                process_command (lit "alice");
                identity_command (lit "bob");
                process_command (lit "bob")] |}
  /\ script office_malformed [1; 1]%nat (lit "table") =
     {| exit_status := 1; stdout := []; traceback := Some ValueError;
        ran := [group_command;
                identity_command (lit "bob");
                process_command (lit "bob")] |}.
Proof. conjuncts; evaluate. Qed.

(** ** A failed process lookup *)

(** C2, as the script has it.  When the process lookup of a username exits
    non-zero with a standard error that is valid UTF-8, and the stream
    decoded by its identity lookup is valid UTF-8 too, the collection
    returns no record and raises nothing.  Among usernames whose
    collections all return, such a username changes nothing in the list
    given to [print_stats]: with or without it, and whatever the two
    schedules, the list holds the records of the other usernames in their
    order.  In general the two runs raise together or return the same
    list. *)
Theorem failed_lookup_is_dropped (sys : str -> Process)
    (username err : str) :
  decodable (sys (identity_command username)) ->
  returncode (sys (process_command username)) <> 0 ->
  decode (error (sys (process_command username))) = Some err ->
  collect sys username = Returned None
  /\ forall (schedule schedule' : list nat) (before after : list str),
       ((forall u, u ∈ before ++ after ->
                   exists r, collect sys u = Returned r) ->
        final_stats sys schedule (before ++ username :: after)
        = Returned (omap (record_of sys) (before ++ after))
        /\ final_stats sys schedule' (before ++ after)
           = Returned (omap (record_of sys) (before ++ after)))
       /\ match final_stats sys schedule (before ++ username :: after),
                final_stats sys schedule' (before ++ after) with
          | Returned stats, Returned stats' => stats = stats'
          | Raised _, Raised _ => True
          | _, _ => False
          end.
Proof.
  intros Hid Hrc Hd.
  assert (Hnone : collect sys username = Returned None).
  { rewrite collect_bind.
    destruct (lookup_upn_decodable sys username Hid) as [upn ->].
    now apply lookup_stats_failed with (err := err). }
  split; [exact Hnone |].
  intros schedule schedule' before after.
  assert (Hboth : (forall u, u ∈ before ++ after ->
                             exists r, collect sys u = Returned r) ->
                  final_stats sys schedule (before ++ username :: after)
                  = Returned (omap (record_of sys) (before ++ after))
                  /\ final_stats sys schedule' (before ++ after)
                     = Returned (omap (record_of sys) (before ++ after))).
  { intros Hall. split.
    - rewrite final_stats_returns.
      + rewrite !omap_app. cbn. unfold record_of at 2. now rewrite Hnone.
      + intros u Hu. apply elem_of_app in Hu as [Hu | Hu].
        * apply Hall, elem_of_app. now left.
        * apply elem_of_cons in Hu as [-> | Hu]; [eauto |].
          apply Hall, elem_of_app. now right.
    - now apply final_stats_returns. }
  split; [exact Hboth |].
  destruct (final_stats_cases sys schedule' (before ++ after))
    as [Hall | (u & e & Hu & He)].
  - destruct (Hboth Hall) as [-> ->]. reflexivity.
  - destruct (final_stats_raises sys schedule' (before ++ after) u e Hu He)
      as [e1 ->].
    destruct (final_stats_raises sys schedule (before ++ username :: after)
                u e) as [e2 ->]; [| exact He | exact I].
    apply elem_of_app in Hu as [Hu | Hu]; apply elem_of_app;
      [left | right; right]; exact Hu.
Qed.

(** C2 on the office: carol, whom the machine does not know, is dropped
    from between alice and bob. *)
Lemma failed_lookup_is_dropped_office :
  decodable (office (identity_command (lit "carol")))
  /\ returncode (office (process_command (lit "carol"))) <> 0
  /\ decode (error (office (process_command (lit "carol"))))
     = Some (lit "command not found")
  /\ collect office (lit "carol") = Returned None
  /\ final_stats office [2; 0; 1]%nat [lit "alice"; lit "carol"; lit "bob"]
     = final_stats office [1]%nat [lit "alice"; lit "bob"].
Proof.
  assert (Hid : decodable (office (identity_command (lit "carol"))))
    by (eexists; evaluate).
  assert (Hrc : returncode (office (process_command (lit "carol"))) <> 0)
    by evaluate.
  assert (Hd : decode (error (office (process_command (lit "carol"))))
               = Some (lit "command not found")) by evaluate.
  destruct (failed_lookup_is_dropped office (lit "carol")
              (lit "command not found") Hid Hrc Hd) as [Hnone Hlist].
  split; [exact Hid |]. split; [exact Hrc |]. split; [exact Hd |].
  split; [exact Hnone |].
  destruct (proj1 (Hlist [2; 0; 1]%nat [1]%nat [lit "alice"] [lit "bob"]))
    as [H1 H2].
  { intros u Hu.
    apply elem_of_cons in Hu as [-> | Hu];
      [eexists; evaluate |].
    apply elem_of_cons in Hu as [-> | Hu];
      [eexists; evaluate |].
    inversion Hu. }
  cbn [app] in H1, H2. now rewrite H1, H2.
Defined.

(** C2, as the claim has it, fails: when the process lookup of bob exits
    with status one and writes the byte [0xff] on standard error, the
    collection of bob raises [UnicodeDecodeError] instead of returning no
    record, and the run prints nothing.  The same happens to carol, whose
    process lookup fails with a readable message, when her identity lookup
    wrote that byte on standard output. *)
Lemma failed_lookup_is_not_dropped :
  returncode (office_garbled_ps (process_command (lit "bob"))) <> 0
  /\ collect office_garbled_ps (lit "bob") = Raised UnicodeDecodeError
  /\ script office_garbled_ps [] (lit "table") =
     {| exit_status := 1; stdout := []; traceback := Some UnicodeDecodeError;
        ran := [group_command;
                identity_command (lit "alice");
                process_command (lit "alice");
                identity_command (lit "bob");
                process_command (lit "bob")] |}
  /\ returncode (office_garbled_carol (process_command (lit "carol"))) <> 0
  /\ decode (error (office_garbled_carol (process_command (lit "carol"))))
     = Some (lit "command not found")
  /\ collect office_garbled_carol (lit "carol") = Raised UnicodeDecodeError.
Proof. conjuncts; evaluate. Qed.

(** ** The totals *)

(** C3.  When the process lookup of a username succeeds and every line of
    its output holds three numeric fields, the collection ends as the
    identity lookup does, and the record it returns holds the exact sum of
    the first fields and the float sums, from [0.0] and in line order, of
    the second and of the third fields.  In particular, on the lines
    [100 1.5 2.0] and [200 0.5 1.0] with the identity [alice@EXAMPLE], the
    record of alice holds 300, 2.0 and 3.0, and its table row is
    [alice], [alice@EXAMPLE], [300], [2.00], [3.00] separated by tabs. *)
Theorem collect_totals :
  (forall (sys : str -> Process) (username out : str)
          (rows : list (Z * float * float)),
     returncode (sys (process_command username)) = 0 ->
     decode (output (sys (process_command username))) = Some out ->
     mapM parse_line (lines_of out) = Some rows ->
     collect sys username =
     match run sys (lookup_upn username) with
     | Returned upn =>
       Returned (Some {| username := username;
                         upn := strip_if_truthy upn;
                         rss_total := Z_sum (map (fun r => r.1.1) rows);
                         pmem_total := float_sum (map (fun r => r.1.2) rows);
                         pcpu_total := float_sum (map (fun r => r.2) rows) |})
     | Raised e => Raised e
     end)
  /\ collect office (lit "alice") =
     Returned (Some {| username := lit "alice";
                       upn := Some (lit "alice@EXAMPLE");
                       rss_total := 300;
                       pmem_total := float_lit "2.0";
                       pcpu_total := float_lit "3.0" |})
  /\ to_table_row {| username := lit "alice";
                     upn := Some (lit "alice@EXAMPLE");
                     rss_total := 300;
                     pmem_total := float_lit "2.0";
                     pcpu_total := float_lit "3.0" |}
     = lit "alice" ++ TAB ++ lit "alice@EXAMPLE" ++ TAB ++ lit "300" ++ TAB
       ++ lit "2.00" ++ TAB ++ lit "3.00".
Proof.
  split; [| split].
  - intros sys username out rows Hrc Hd Hrows.
    rewrite collect_bind.
    destruct (run sys (lookup_upn username)) as [upn | e]; [| reflexivity].
    now apply lookup_stats_parsed with (out := out).
  - evaluate.
  - evaluate.
Qed.

(** C3 on the office machine, where the rows of alice are read off her
    process table. *)
Lemma collect_totals_office :
  returncode (office (process_command (lit "alice"))) = 0
  /\ decode (output (office (process_command (lit "alice"))))
     = Some (lit "100 1.5 2.0" ++ NL ++ lit "200 0.5 1.0")
  /\ mapM parse_line (lines_of (lit "100 1.5 2.0" ++ NL ++ lit "200 0.5 1.0"))
     = Some [(100, float_lit "1.5", float_lit "2.0");
             (200, float_lit "0.5", float_lit "1.0")]
  /\ collect office (lit "alice") =
     match run office (lookup_upn (lit "alice")) with
     | Returned upn =>
       Returned (Some {| username := lit "alice";
                         upn := strip_if_truthy upn;
                         rss_total := Z_sum [100; 200];
                         pmem_total :=
                           float_sum [float_lit "1.5"; float_lit "0.5"];
                         pcpu_total :=
                           float_sum [float_lit "2.0"; float_lit "1.0"] |})
     | Raised e => Raised e
     end.
Proof.
  split; [reflexivity |]. split; [evaluate |].
  split; [evaluate |].
  apply (proj1 collect_totals office (lit "alice")
           (lit "100 1.5 2.0" ++ NL ++ lit "200 0.5 1.0")
           [(100, float_lit "1.5", float_lit "2.0");
            (200, float_lit "0.5", float_lit "1.0")]);
    evaluate.
Defined.

(** ** The group enumeration *)

(** C4.  When the group command exits non-zero, the run ends with exit
    status 1 and an uncaught exception as its diagnostic (the
    [CommandRunException] with the command and its standard error, when
    that is valid UTF-8); nothing is printed, and the group command is the
    only command that ran: no identity or process lookup took place. *)
Theorem group_failure_is_fatal (sys : str -> Process) (schedule : list nat)
    (output_format : str) :
  returncode (sys group_command) <> 0 ->
  exit_status (script sys schedule output_format) = 1
  /\ (exists e,
        traceback (script sys schedule output_format) = Some e
        /\ forall err,
             decode (error (sys group_command)) = Some err ->
             e = CommandRunException
                   (lit "Error running command " ++ group_command
                    ++ lit ": " ++ err))
  /\ stdout (script sys schedule output_format) = []
  /\ ran (script sys schedule output_format) = [group_command].
Proof.
  intros Hrc.
  assert (exists e,
             run sys (run_command group_command) = Raised e
             /\ forall err,
                  decode (error (sys group_command)) = Some err ->
                  e = CommandRunException
                        (lit "Error running command " ++ group_command
                         ++ lit ": " ++ err)) as (e & Hr & He).
  { destruct (run_command_cases sys group_command)
      as [(o & Hz & _) | [(err & _ & Hd & Hr) | [Hn Hr]]].
    - contradiction.
    - eexists. split; [exact Hr |]. intros err' Hd'. congruence.
    - eexists. split; [exact Hr |]. intros err' Hd'.
      apply Z.eqb_neq in Hrc. rewrite Hrc in Hn. congruence. }
  rewrite (script_group_raised sys schedule output_format e Hr). cbn.
  split; [reflexivity |]. split; [eauto |]. split; reflexivity.
Qed.

(** C4 on a machine without the directory tools. *)
Lemma group_failure_is_fatal_bare :
  returncode (bare group_command) <> 0
  /\ exit_status (script bare [] (lit "table")) = 1
  /\ stdout (script bare [] (lit "table")) = []
  /\ ran (script bare [] (lit "table")) = [group_command].
Proof.
  assert (H : returncode (bare group_command) <> 0) by evaluate.
  split; [exact H |].
  destruct (group_failure_is_fatal bare [] (lit "table") H)
    as (Hexit & _ & Hout & Hran).
  auto.
Defined.

(** ** A failed identity lookup *)

(** C5, as the script has it.  When the identity lookup of a username
    exits non-zero with a standard error that is valid UTF-8 and its
    process lookup succeeds with well-formed lines, the collection returns
    a record without identity, and the table row of that record holds
    [none] in its second column. *)
Theorem failed_identity_is_absent (sys : str -> Process)
    (username err out : str) (rows : list (Z * float * float)) :
  returncode (sys (identity_command username)) <> 0 ->
  decode (error (sys (identity_command username))) = Some err ->
  returncode (sys (process_command username)) = 0 ->
  decode (output (sys (process_command username))) = Some out ->
  mapM parse_line (lines_of out) = Some rows ->
  exists stat,
    collect sys username = Returned (Some stat)
    /\ upn stat = None
    /\ to_table_row stat =
       username ++ TAB ++ lit "none" ++ TAB
       ++ str_of_int (Z_sum (map (fun r => r.1.1) rows)) ++ TAB
       ++ format_2f (float_sum (map (fun r => r.1.2) rows)) ++ TAB
       ++ format_2f (float_sum (map (fun r => r.2) rows)).
Proof.
  intros Hrc Hd Hrc' Hd' Hrows.
  eexists. split; [| split].
  - rewrite collect_bind, (lookup_upn_failed sys username err Hrc Hd).
    exact (lookup_stats_parsed sys username out None rows Hrc' Hd' Hrows).
  - reflexivity.
  - reflexivity.
Qed.

(** C5 on the office, where bob has no identity. *)
Lemma failed_identity_is_absent_office :
  returncode (office (identity_command (lit "bob"))) <> 0
  /\ decode (error (office (identity_command (lit "bob"))))
     = Some (lit "bob is not a zone user")
  /\ returncode (office (process_command (lit "bob"))) = 0
  /\ decode (output (office (process_command (lit "bob"))))
     = Some (lit "7 0.1 0.2" ++ NL)
  /\ mapM parse_line (lines_of (lit "7 0.1 0.2" ++ NL))
     = Some [(7, float_lit "0.1", float_lit "0.2")]
  /\ exists stat,
       collect office (lit "bob") = Returned (Some stat)
       /\ upn stat = None
       /\ to_table_row stat =
          lit "bob" ++ TAB ++ lit "none" ++ TAB ++ lit "7" ++ TAB
          ++ lit "0.10" ++ TAB ++ lit "0.20".
Proof.
  assert (Hrc : returncode (office (identity_command (lit "bob"))) <> 0)
    by evaluate.
  assert (Hd : decode (error (office (identity_command (lit "bob"))))
               = Some (lit "bob is not a zone user"))
    by evaluate.
  assert (Hrc' : returncode (office (process_command (lit "bob"))) = 0)
    by reflexivity.
  assert (Hd' : decode (output (office (process_command (lit "bob"))))
                = Some (lit "7 0.1 0.2" ++ NL)) by evaluate.
  assert (Hrows : mapM parse_line (lines_of (lit "7 0.1 0.2" ++ NL))
                  = Some [(7, float_lit "0.1", float_lit "0.2")])
    by evaluate.
  destruct (failed_identity_is_absent office (lit "bob")
              (lit "bob is not a zone user") (lit "7 0.1 0.2" ++ NL)
              [(7, float_lit "0.1", float_lit "0.2")] Hrc Hd Hrc' Hd' Hrows)
    as (stat & Hstat & Hupn & Hrow).
  split; [exact Hrc |]. split; [exact Hd |]. split; [exact Hrc' |].
  split; [exact Hd' |]. split; [exact Hrows |].
  exists stat. split; [exact Hstat |]. split; [exact Hupn |].
  rewrite Hrow. evaluate.
Defined.

(** C5, as the claim has it, fails: when the identity lookup of bob exits
    with status one and writes the byte [0xff] on standard error, while
    his process lookup succeeds with a well-formed line, the collection of
    bob raises [UnicodeDecodeError]: no record is produced, and the run
    prints nothing. *)
Lemma failed_identity_is_propagated :
  returncode (office_garbled_id (identity_command (lit "bob"))) <> 0
  /\ returncode (office_garbled_id (process_command (lit "bob"))) = 0
  /\ mapM parse_line (lines_of (lit "7 0.1 0.2" ++ NL))
     = Some [(7, float_lit "0.1", float_lit "0.2")]
  /\ decode (output (office_garbled_id (process_command (lit "bob"))))
     = Some (lit "7 0.1 0.2" ++ NL)
  /\ collect office_garbled_id (lit "bob") = Raised UnicodeDecodeError
  /\ script office_garbled_id [] (lit "table") =
     {| exit_status := 1; stdout := []; traceback := Some UnicodeDecodeError;
        ran := [group_command;
                identity_command (lit "alice");
                process_command (lit "alice");
                identity_command (lit "bob")] |}.
Proof. conjuncts; evaluate. Qed.

(** ** The order of the results *)

(** C6, as the script has it.  For usernames whose collections all return,
    the list given to [print_stats] holds exactly the records of the
    usernames that have one, in the order of the usernames, whatever the
    schedule; when the collection of one username raises, [gather] raises
    and no list is returned.  A run whose group lists usernames of the
    first kind prints the report of that list. *)
Theorem gathered_in_input_order (sys : str -> Process) (schedule : list nat)
    (usernames : list str) :
  ((forall u, u ∈ usernames -> exists r, collect sys u = Returned r) ->
   final_stats sys schedule usernames =
   Returned (omap (record_of sys) usernames))
  /\ (forall u e, u ∈ usernames -> collect sys u = Raised e ->
        exists e', final_stats sys schedule usernames = Raised e')
  /\ forall output_format text,
       run sys (run_command group_command) = Returned text ->
       usernames = usernames_of text ->
       (forall u, u ∈ usernames -> exists r, collect sys u = Returned r) ->
       exit_status (script sys schedule output_format) = 0
       /\ stdout (script sys schedule output_format) =
          text_of (report_lines (omap (record_of sys) usernames)
                                output_format).
Proof.
  split; [| split].
  - apply final_stats_returns.
  - intros u e. apply final_stats_raises.
  - intros output_format text Hg -> Hall.
    destruct (script_final_stats sys schedule output_format text Hg Hall)
      as [log ->].
    split; reflexivity.
Qed.

(** C6 on the office, with the processes of bob ending first. *)
Lemma gathered_in_input_order_office :
  (forall u, u ∈ [lit "alice"; lit "carol"; lit "bob"] ->
             exists r, collect office u = Returned r)
  /\ final_stats office [2; 2; 0; 1]%nat [lit "alice"; lit "carol"; lit "bob"]
     = Returned [{| username := lit "alice";
                    upn := Some (lit "alice@EXAMPLE");
                    rss_total := 300;
                    pmem_total := float_lit "2.0";
                    pcpu_total := float_lit "3.0" |};
                 {| username := lit "bob";
                    upn := None;
                    rss_total := 7;
                    pmem_total := float_lit "0.1";
                    pcpu_total := float_lit "0.2" |}].
Proof.
  assert (Hall : forall u, u ∈ [lit "alice"; lit "carol"; lit "bob"] ->
                           exists r, collect office u = Returned r).
  { intros u Hu.
    apply elem_of_cons in Hu as [-> | Hu];
      [eexists; evaluate |].
    apply elem_of_cons in Hu as [-> | Hu];
      [eexists; evaluate |].
    apply elem_of_cons in Hu as [-> | Hu];
      [eexists; evaluate |].
    inversion Hu. }
  split; [exact Hall |].
  rewrite (proj1 (gathered_in_input_order office [2; 2; 0; 1]%nat
                    [lit "alice"; lit "carol"; lit "bob"]) Hall).
  evaluate.
Defined.

(** C6, as the claim has it, fails on the office with the malformed line:
    the collection of alice returns her record, but [gather] raises the
    [ValueError] of bob and returns no list, whatever the order of the
    usernames and under several schedules. *)
Lemma gathered_nothing_returned :
  collect office_malformed (lit "alice") =
  Returned (Some {| username := lit "alice";
                    upn := Some (lit "alice@EXAMPLE");
                    rss_total := 300;
                    pmem_total := float_lit "2.0";
                    pcpu_total := float_lit "3.0" |})
  /\ final_stats office_malformed [] [lit "alice"; lit "bob"]
     = Raised ValueError
  /\ final_stats office_malformed [0; 0; 1; 1]%nat [lit "alice"; lit "bob"]
     = Raised ValueError
  /\ final_stats office_malformed [1; 1]%nat [lit "bob"; lit "alice"]
     = Raised ValueError.
Proof. conjuncts; evaluate. Qed.

(** ** The table *)



(** ** The structured report *)


(** ** The command executor *)

(** C9, as the script has it.  [run_command] returns the decoded standard
    output exactly when the process exits with status zero and its
    standard output is valid UTF-8; it raises [CommandRunException], whose
    message holds the command and the decoded standard error, exactly when
    the process exits non-zero and its standard error is valid UTF-8; it
    raises [UnicodeDecodeError] exactly when the stream it decodes is not
    valid UTF-8; and it runs one process, the one of its command. *)
Theorem run_command_contract (sys : str -> Process) (command : str) :
  (forall out,
     run sys (run_command command) = Returned out <->
     returncode (sys command) = 0
     /\ decode (output (sys command)) = Some out)
  /\ (forall message,
        run sys (run_command command) = Raised (CommandRunException message)
        <->
        returncode (sys command) <> 0
        /\ exists err,
             decode (error (sys command)) = Some err
             /\ message =
                lit "Error running command " ++ command ++ lit ": " ++ err)
  /\ (run sys (run_command command) = Raised UnicodeDecodeError <->
      ~ decodable (sys command))
  /\ run sys (run_command command) <> Raised ValueError
  /\ commands sys (run_command command) = [command].
Proof.
  pose proof (run_command_cases sys command) as Hcases.
  split; [| split; [| split; [| split]]].
  - intros out. split.
    + intros H.
      destruct Hcases as [(o & ? & ? & Hr) | [(err & ? & ? & Hr) | [_ Hr]]];
        rewrite Hr in H; split; congruence.
    + intros [Hrc Hd]. now apply run_command_zero.
  - intros message. split.
    + intros H.
      destruct Hcases as [(o & ? & ? & Hr) | [(err & ? & ? & Hr) | [_ Hr]]];
        rewrite Hr in H; try congruence.
      split; [assumption |]. exists err. split; [assumption | congruence].
    + intros [Hrc (err & Hd & ->)]. now apply run_command_nonzero.
  - split.
    + intros H [o Ho].
      destruct Hcases as [(x & Hrc & Hd & Hr) | [(x & Hrc & Hd & Hr) | [Hn _]]];
        rewrite ?Hr in H; congruence.
    + intros Hn. apply run_command_undecodable.
      destruct (if returncode (sys command) =? 0
                then decode (output (sys command))
                else decode (error (sys command))) as [o |] eqn:Ho;
        [| reflexivity].
      exfalso. apply Hn. unfold decodable. rewrite Ho. eauto.
  - intros H.
    destruct Hcases as [(o & ? & ? & Hr) | [(err & ? & ? & Hr) | [_ Hr]]];
      rewrite Hr in H; congruence.
  - apply commands_run_command.
Qed.

(** C9, as the claim has it, fails: a process that exits with status zero
    and writes the single byte [0xff] makes [run_command] raise
    [UnicodeDecodeError] instead of returning, and a process that exits
    with status one and writes that byte on standard error makes it raise
    [UnicodeDecodeError] instead of [CommandRunException]. *)
Lemma run_command_undecodable_streams :
  returncode (succeeds [xff]) = 0
  /\ run (fun _ => succeeds [xff]) (run_command group_command)
     = Raised UnicodeDecodeError
  /\ returncode (fails [xff]) <> 0
  /\ run (fun _ => fails [xff]) (run_command group_command)
     = Raised UnicodeDecodeError.
Proof. conjuncts; evaluate. Qed.

(** ** An empty process table *)

(** C10.  When the process lookup of a username succeeds with an empty or
    whitespace-only standard output, the loop runs over a single empty
    line, which does not unpack into three fields: the lookup block raises
    [ValueError], which is not the exception the script catches.  The
    collection therefore returns neither a record nor [None]: it raises,
    and any run whose group lists the username ends with exit status 1
    and prints nothing. *)
Theorem empty_table_aborts_run (sys : str -> Process) (username out : str) :
  returncode (sys (process_command username)) = 0 ->
  decode (output (sys (process_command username))) = Some out ->
  Forall (fun c => isspace c = true) out ->
  lines_of out = [[]]
  /\ parse_line [] = None
  /\ (forall upn, run sys (lookup_stats username upn) = Raised ValueError)
  /\ (forall r, collect sys username <> Returned r)
  /\ (forall message,
        collect sys username <> Raised (CommandRunException message))
  /\ (decodable (sys (identity_command username)) ->
      collect sys username = Raised ValueError)
  /\ forall (schedule : list nat) (output_format usernames : str),
       run sys (run_command group_command) = Returned usernames ->
       username ∈ usernames_of usernames ->
       exit_status (script sys schedule output_format) = 1
       /\ stdout (script sys schedule output_format) = []
       /\ exists e, traceback (script sys schedule output_format) = Some e.
Proof.
  intros Hrc Hd Hws.
  assert (Hlines : lines_of out = [[]]).
  { unfold lines_of. now rewrite (strip_spaces out Hws). }
  assert (Hbad : mapM parse_line (lines_of out) = None).
  { rewrite Hlines. reflexivity. }
  destruct (collect_malformed sys username out Hrc Hd Hbad)
    as (Hstats & Hid & e & He & Hcases).
  split; [exact Hlines |]. split; [reflexivity |]. split; [exact Hstats |].
  split; [| split; [| split; [exact Hid |]]].
  - intros r Hr. rewrite He in Hr. discriminate.
  - intros message Hm. rewrite He in Hm.
    destruct Hcases as [-> | ->]; discriminate.
  - intros schedule output_format usernames Hg Hin.
    now apply (script_aborted sys schedule output_format usernames username e).
Qed.

(** C10 on the office where the process lookup of bob prints a space and a
    newline. *)
Lemma empty_table_aborts_run_office :
  returncode (office_idle (process_command (lit "bob"))) = 0
  /\ decode (output (office_idle (process_command (lit "bob"))))
     = Some (lit " " ++ NL)
  /\ Forall (fun c => isspace c = true) (lit " " ++ NL)
  /\ collect office_idle (lit "bob") = Raised ValueError
  /\ exit_status (script office_idle [] (lit "table")) = 1
  /\ stdout (script office_idle [] (lit "table")) = [].
Proof.
  assert (Hrc : returncode (office_idle (process_command (lit "bob"))) = 0)
    by reflexivity.
  assert (Hd : decode (output (office_idle (process_command (lit "bob"))))
               = Some (lit " " ++ NL)) by evaluate.
  assert (Hws : Forall (fun c => isspace c = true) (lit " " ++ NL))
    by (repeat constructor).
  destruct (empty_table_aborts_run office_idle (lit "bob") (lit " " ++ NL)
              Hrc Hd Hws) as (_ & _ & _ & _ & _ & Hid & Hrun).
  destruct (Hrun [] (lit "table") (lit "alice" ++ NL ++ lit "bob" ++ NL))
    as (Hexit & Hout & _).
  { evaluate. }
  { vm_compute. right. left. }
  split; [exact Hrc |]. split; [exact Hd |]. split; [exact Hws |].
  split; [apply Hid; eexists; evaluate |].
  split; assumption.
Defined.

(* ===================================================================== *)
(** * Further properties *)
(* ===================================================================== *)

(** ** The commands of a collection *)

(** X1.  A collection runs the identity lookup of its username first and
    then, unless the identity lookup raised, the process lookup of that
    username, and no other command. *)
Theorem collection_commands (sys : str -> Process) (username : str) :
  commands sys (get_user_stats username) =
  identity_command username ::
  match run sys (lookup_upn username) with
  | Returned _ => [process_command username]
  | Raised _ => []
  end.
Proof. apply commands_get_user_stats. Qed.

(** ** Two phases *)

(** X2.  In every run and under every schedule the group command is the
    first command to end, and every other command that ran is the identity
    lookup or the process lookup of a username the group command
    listed. *)
Theorem group_enumeration_first (sys : str -> Process) (schedule : list nat)
    (output_format : str) :
  exists rest,
    ran (script sys schedule output_format) = group_command :: rest
    /\ forall c, c ∈ rest ->
         exists usernames u,
           run sys (run_command group_command) = Returned usernames
           /\ u ∈ usernames_of usernames
           /\ (c = identity_command u \/ c = process_command u).
Proof.
  destruct (run sys (run_command group_command)) as [usernames | e] eqn:Hg.
  - rewrite (script_ran sys schedule output_format usernames Hg).
    destruct (gather_loop_log_subset sys schedule
                (map get_user_stats (usernames_of usernames)) [group_command])
      as (new & -> & Hsub).
    exists new. split; [reflexivity |].
    intros c Hc. apply Hsub, collection_command in Hc as (u & Hu & Hc).
    exists usernames, u. auto.
  - rewrite (script_group_raised sys schedule output_format e Hg). cbn.
    exists []. split; [reflexivity | intros c Hc; inversion Hc].
Qed.

(** ** Every lookup once *)

(** X3.  When the group command succeeds and every collection returns, the
    commands of the run are, in some order after the group command, one
    identity lookup and one process lookup per listed username: no
    command is run twice and none is left out. *)
Theorem every_lookup_runs_once (sys : str -> Process) (schedule : list nat)
    (output_format usernames : str) :
  run sys (run_command group_command) = Returned usernames ->
  (forall u, u ∈ usernames_of usernames ->
             exists r, collect sys u = Returned r) ->
  ran (script sys schedule output_format)
  ≡ₚ group_command ::
     concat (map (fun u => [identity_command u; process_command u])
                 (usernames_of usernames)).
Proof.
  intros Hg Hall.
  rewrite (script_ran sys schedule output_format usernames Hg).
  assert (Hcmds : map (commands sys)
                      (map get_user_stats (usernames_of usernames))
                  = map (fun u => [identity_command u; process_command u])
                        (usernames_of usernames)).
  { rewrite map_map. apply map_ext_in. intros u Hu.
    apply list_elem_of_In in Hu.
    rewrite commands_get_user_stats.
    destruct (Hall u Hu) as [r Hr]. rewrite collect_bind in Hr.
    destruct (run sys (lookup_upn u)); [reflexivity | discriminate]. }
  erewrite gather_loop_log_returned.
  - now rewrite Hcmds.
  - apply gather_loop_returns. rewrite map_map.
    apply (collect_all_returned sys _ Hall).
Qed.

(** X3 on the office. *)
Lemma every_lookup_runs_once_office :
  run office (run_command group_command)
  = Returned (lit "alice" ++ NL ++ lit "bob" ++ NL)
  /\ ran (script office [1; 0; 1]%nat (lit "json"))
     ≡ₚ [group_command;
         identity_command (lit "alice"); process_command (lit "alice");
         identity_command (lit "bob"); process_command (lit "bob")].
Proof.
  assert (Hg : run office (run_command group_command)
               = Returned (lit "alice" ++ NL ++ lit "bob" ++ NL))
    by evaluate.
  split; [exact Hg |].
  apply (every_lookup_runs_once office [1; 0; 1]%nat (lit "json") _ Hg).
  intros u Hu.
  apply elem_of_cons in Hu as [-> | Hu]; [eexists; evaluate |].
  apply elem_of_cons in Hu as [-> | Hu]; [eexists; evaluate |].
  inversion Hu.
Defined.

(** ** The usernames of an empty group *)

(** X4.  The text of the group command always yields at least one
    username: empty lines are not filtered, and an empty or blank text
    yields the single empty username, for which the two lookups are still
    run, with nothing after the option of each command. *)
Theorem usernames_never_empty (usernames : str) :
  usernames_of usernames <> []
  /\ (Forall (fun c => isspace c = true) usernames ->
      usernames_of usernames = [[]])
  /\ usernames_of (lit "alice" ++ NL ++ NL ++ lit " bob ")
     = [lit "alice"; []; lit "bob"]
  /\ forall sys : str -> Process,
       commands sys (get_user_stats [])
       = lit "adquery user -P " ::
         match run sys (lookup_upn []) with
         | Returned _ => [lit "ps -hax -o rss,pmem,pcpu -u "]
         | Raised _ => []
         end.
Proof.
  split; [| split; [| split]].
  - unfold usernames_of.
    destruct (strip usernames) as [| c r]; [discriminate |].
    cbn. destruct (c =? LF)%N; [discriminate |].
    destruct (split_on LF r); discriminate.
  - intros H. unfold usernames_of. now rewrite (strip_spaces usernames H).
  - evaluate.
  - intros sys. apply commands_get_user_stats.
Qed.

(** X4 on a group command that prints only a newline. *)
Lemma usernames_never_empty_blank :
  Forall (fun c => isspace c = true) NL /\ usernames_of NL = [[]].
Proof.
  assert (H : Forall (fun c => isspace c = true) NL) by (repeat constructor).
  split; [exact H |].
  exact (proj1 (proj2 (usernames_never_empty NL)) H).
Defined.

(** ** How a collection and a run can end *)

Section Endings.

Variable sys : str -> Process.

Lemma lookup_upn_inv (username : str) :
  (exists out, returncode (sys (identity_command username)) = 0
     /\ decode (output (sys (identity_command username))) = Some out
     /\ run sys (lookup_upn username) = Returned (Some out))
  \/ (exists err, returncode (sys (identity_command username)) <> 0
     /\ decode (error (sys (identity_command username))) = Some err
     /\ run sys (lookup_upn username) = Returned None)
  \/ (~ decodable (sys (identity_command username))
     /\ run sys (lookup_upn username) = Raised UnicodeDecodeError).
Proof.
  destruct (run_command_cases sys (identity_command username))
    as [(out & Hrc & Hd & _) | [(err & Hrc & Hd & _) | [Hn _]]].
  - left. exists out. eauto using lookup_upn_found.
  - right. left. exists err. eauto using lookup_upn_failed.
  - right. right.
    assert (Hnd : ~ decodable (sys (identity_command username))).
    { unfold decodable. rewrite Hn. intros [x Hx]. discriminate. }
    split; [exact Hnd | now apply lookup_upn_undecodable].
Qed.

Lemma lookup_stats_inv (username : str) (upn : option str) :
  (exists err, returncode (sys (process_command username)) <> 0
     /\ decode (error (sys (process_command username))) = Some err
     /\ run sys (lookup_stats username upn) = Returned None)
  \/ (~ decodable (sys (process_command username))
     /\ run sys (lookup_stats username upn) = Raised UnicodeDecodeError)
  \/ (exists out rows,
        returncode (sys (process_command username)) = 0
        /\ decode (output (sys (process_command username))) = Some out
        /\ mapM parse_line (lines_of out) = Some rows
        /\ run sys (lookup_stats username upn) =
           Returned (Some {| username := username;
                             upn := strip_if_truthy upn;
                             rss_total := Z_sum (map (fun r => r.1.1) rows);
                             pmem_total :=
                               float_sum (map (fun r => r.1.2) rows);
                             pcpu_total :=
                               float_sum (map (fun r => r.2) rows) |}))
  \/ (exists out,
        returncode (sys (process_command username)) = 0
        /\ decode (output (sys (process_command username))) = Some out
        /\ mapM parse_line (lines_of out) = None
        /\ run sys (lookup_stats username upn) = Raised ValueError).
Proof.
  destruct (run_command_cases sys (process_command username))
    as [(out & Hrc & Hd & _) | [(err & Hrc & Hd & _) | [Hn _]]].
  - destruct (mapM parse_line (lines_of out)) as [rows |] eqn:Hrows.
    + right. right. left. exists out, rows.
      eauto 6 using lookup_stats_parsed.
    + right. right. right. exists out. eauto 6 using lookup_stats_malformed.
  - left. exists err. eauto using lookup_stats_failed.
  - right. left.
    assert (Hnd : ~ decodable (sys (process_command username))).
    { unfold decodable. rewrite Hn. intros [x Hx]. discriminate. }
    split; [exact Hnd | now apply lookup_stats_undecodable].
Qed.

Lemma identity_of_upn (username : str) (upn : option str) :
  run sys (lookup_upn username) = Returned upn ->
  strip_if_truthy upn = identity_of sys username.
Proof.
  unfold identity_of.
  destruct (lookup_upn_inv username)
    as [(out & Hrc & Hd & ->) | [(err & Hrc & Hd & ->) | [_ ->]]];
    intros H; try discriminate; injection H as <-.
  - rewrite Hrc, Hd. cbn. destruct out; reflexivity.
  - apply Z.eqb_neq in Hrc. rewrite Hrc. reflexivity.
Qed.

(** The five ways a collection ends. *)
Lemma collect_inv (username : str) :
  (~ decodable (sys (identity_command username))
   /\ collect sys username = Raised UnicodeDecodeError)
  \/ (decodable (sys (identity_command username))
      /\ exists err,
           returncode (sys (process_command username)) <> 0
           /\ decode (error (sys (process_command username))) = Some err
           /\ collect sys username = Returned None)
  \/ (decodable (sys (identity_command username))
      /\ ~ decodable (sys (process_command username))
      /\ collect sys username = Raised UnicodeDecodeError)
  \/ (decodable (sys (identity_command username))
      /\ exists out rows,
           returncode (sys (process_command username)) = 0
           /\ decode (output (sys (process_command username))) = Some out
           /\ mapM parse_line (lines_of out) = Some rows
           /\ collect sys username =
              Returned (Some {| username := username;
                                upn := identity_of sys username;
                                rss_total := Z_sum (map (fun r => r.1.1) rows);
                                pmem_total :=
                                  float_sum (map (fun r => r.1.2) rows);
                                pcpu_total :=
                                  float_sum (map (fun r => r.2) rows) |}))
  \/ (decodable (sys (identity_command username))
      /\ exists out,
           returncode (sys (process_command username)) = 0
           /\ decode (output (sys (process_command username))) = Some out
           /\ mapM parse_line (lines_of out) = None
           /\ collect sys username = Raised ValueError).
Proof.
  rewrite collect_bind.
  destruct (lookup_upn_inv username)
    as [(o & Hrc & Hd & Hu) | [(e & Hrc & Hd & Hu) | [Hn Hu]]].
  3: { left. rewrite Hu. auto. }
  all: right.
  all: assert (Hdec : decodable (sys (identity_command username)))
    by (unfold decodable;
        first [ rewrite Hrc, Hd; cbn; eauto
              | apply Z.eqb_neq in Hrc; rewrite Hrc, Hd; eauto ]).
  all: rewrite <- (identity_of_upn username _ Hu), Hu.
  - destruct (lookup_stats_inv username (Some o))
      as [(err & ? & ? & ->) | [[? ->] | [(out & rows & ? & ? & ? & ->)
                                          | (out & ? & ? & ? & ->)]]];
      eauto 12.
  - destruct (lookup_stats_inv username None)
      as [(err & ? & ? & ->) | [[? ->] | [(out & rows & ? & ? & ? & ->)
                                          | (out & ? & ? & ? & ->)]]];
      eauto 12.
Qed.

(** A run ends in one of three ways. *)
Lemma script_cases (schedule : list nat) (output_format : str) :
  (exists e, run sys (run_command group_command) = Raised e
     /\ script sys schedule output_format =
        {| exit_status := 1; stdout := []; traceback := Some e;
           ran := [group_command] |})
  \/ (exists usernames u e log,
        run sys (run_command group_command) = Returned usernames
        /\ u ∈ usernames_of usernames
        /\ collect sys u = Raised e
        /\ script sys schedule output_format =
           {| exit_status := 1; stdout := []; traceback := Some e;
              ran := log |})
  \/ (exists usernames log,
        run sys (run_command group_command) = Returned usernames
        /\ (forall u, u ∈ usernames_of usernames ->
                      exists r, collect sys u = Returned r)
        /\ script sys schedule output_format =
           {| exit_status := 0;
              stdout :=
                text_of (report_lines
                           (omap (record_of sys) (usernames_of usernames))
                           output_format);
              traceback := None; ran := log |}).
Proof.
  destruct (run sys (run_command group_command)) as [usernames | e] eqn:Hg.
  - destruct (gather_loop sys schedule
                (map get_user_stats (usernames_of usernames))
                (completed fresh
                 ++ commands sys (run_command group_command))).1
      as [vs | e] eqn:Hgl.
    + right. right.
      assert (Hall : forall u, u ∈ usernames_of usernames ->
                               exists r, collect sys u = Returned r).
      { intros u Hu. apply gather_loop_returned_inv in Hgl.
        apply (list_elem_of_fmap_2 (collect sys)) in Hu.
        change (collect sys <$> usernames_of usernames)
          with (map (collect sys) (usernames_of usernames)) in Hu.
        rewrite map_map in Hgl. unfold collect in Hu. rewrite Hgl in Hu.
        apply list_elem_of_fmap_1 in Hu as (r & Hr & _). eauto. }
      destruct (script_final_stats sys schedule output_format usernames
                  Hg Hall) as [log Hlog].
      exists usernames, log. auto.
    + right. left.
      destruct (gather_loop_raised_inv sys schedule _ _ e Hgl)
        as (p & Hp & Hrun).
      apply (list_elem_of_fmap_1 get_user_stats) in Hp as (u & -> & Hu).
      unfold script, main, mbind, Main_bind, await, gather.
      rewrite Hg, main_tasks. cbn [printed completed].
      destruct (gather_loop _ _ _ _) as [r log]. cbn in Hgl. subst r.
      exists usernames, u, e, log. auto.
  - left. exists e. split; [reflexivity |].
    now apply script_group_raised.
Qed.

End Endings.


(** X6.  A collection returns a record exactly when the stream decoded by
    the identity lookup is valid UTF-8 and the process lookup exits with
    status zero with a decodable output all of whose lines are
    well-formed; the record then holds the asked username, the trimmed
    identity (absent when the identity command failed or wrote nothing)
    and the sums over the lines.  It returns no record exactly when that
    stream is valid UTF-8 and the process lookup exits non-zero with a
    decodable standard error. *)
Theorem record_characterised (sys : str -> Process) (username : str) :
  (forall stat : UserStat,
     collect sys username = Returned (Some stat) <->
     decodable (sys (identity_command username))
     /\ exists out rows,
          returncode (sys (process_command username)) = 0
          /\ decode (output (sys (process_command username))) = Some out
          /\ mapM parse_line (lines_of out) = Some rows
          /\ stat = {| username := username;
                       upn := identity_of sys username;
                       rss_total := Z_sum (map (fun r => r.1.1) rows);
                       pmem_total := float_sum (map (fun r => r.1.2) rows);
                       pcpu_total := float_sum (map (fun r => r.2) rows) |})
  /\ (collect sys username = Returned None <->
      decodable (sys (identity_command username))
      /\ returncode (sys (process_command username)) <> 0
      /\ is_Some (decode (error (sys (process_command username))))).
Proof.
  pose proof (collect_inv sys username) as Hinv.
  split; [intros stat |]; split.
  - intros H.
    destruct Hinv
      as [[_ Hc] | [(_ & err & _ & _ & Hc) | [(_ & _ & Hc)
         | [(Hdec & out & rows & Hrc & Hd & Hrows & Hc)
           | (_ & out & _ & _ & _ & Hc)]]]];
      rewrite Hc in H; try discriminate.
    injection H as <-. eauto 8.
  - intros (Hdec & out & rows & Hrc & Hd & Hrows & ->).
    destruct Hinv
      as [[Hn _] | [(_ & err & Hrc' & _ & _) | [(_ & Hn & _)
         | [(_ & out' & rows' & _ & Hd' & Hrows' & Hc)
           | (_ & out' & _ & Hd' & Hrows' & _)]]]].
    + contradiction.
    + contradiction.
    + exfalso. apply Hn. unfold decodable. rewrite Hrc, Hd. cbn. eauto.
    + rewrite Hc. rewrite Hd in Hd'. injection Hd' as <-.
      rewrite Hrows in Hrows'. injection Hrows' as <-. reflexivity.
    + rewrite Hd in Hd'. injection Hd' as <-. congruence.
  - intros H.
    destruct Hinv
      as [[_ Hc] | [(Hdec & err & Hrc & Hd & Hc) | [(_ & _ & Hc)
         | [(_ & out & rows & _ & _ & _ & Hc) | (_ & out & _ & _ & _ & Hc)]]]];
      rewrite Hc in H; try discriminate.
    rewrite Hd. eauto.
  - intros (Hdec & Hrc & [err Herr]).
    destruct Hinv
      as [[Hn _] | [(_ & err' & _ & _ & Hc) | [(_ & Hn & _)
         | [(_ & out & rows & Hrc' & _) | (_ & out & Hrc' & _)]]]];
      try contradiction; try assumption.
    exfalso. apply Hn. unfold decodable.
    apply Z.eqb_neq in Hrc. rewrite Hrc, Herr. eauto.
Qed.

(** ** The records of a report *)

Lemma record_of_username (sys : str -> Process) (u : str) (stat : UserStat) :
  record_of sys u = Some stat -> u = username stat.
Proof.
  unfold record_of. intros H.
  destruct (collect_inv sys u)
    as [[_ Hc] | [(_ & err & _ & _ & Hc) | [(_ & _ & Hc)
       | [(_ & out & rows & _ & _ & _ & Hc) | (_ & out & _ & _ & _ & Hc)]]]];
    rewrite Hc in H; try discriminate.
  injection H as <-. reflexivity.
Qed.

Lemma records_sublist (sys : str -> Process) (usernames : list str) :
  map username (omap (record_of sys) usernames) `sublist_of` usernames.
Proof.
  induction usernames as [| u usernames IH]; [constructor |].
  cbn. destruct (record_of sys u) as [stat |] eqn:Hr; cbn.
  - rewrite <- (record_of_username sys u stat Hr). now constructor.
  - now constructor.
Qed.

(** X7.  When [gather] returns, the usernames of the records given to
    [print_stats] are the listed usernames with some left out: same order,
    none added, none repeated more often than listed; and every record is
    the record of its own username. *)
Theorem report_usernames (sys : str -> Process) (schedule : list nat)
    (usernames : list str) (stats : list UserStat) :
  final_stats sys schedule usernames = Returned stats ->
  map username stats `sublist_of` usernames
  /\ (length stats <= length usernames)%nat
  /\ Forall (fun stat => username stat ∈ usernames
                         /\ record_of sys (username stat) = Some stat) stats.
Proof.
  intros H.
  assert (Hstats : stats = omap (record_of sys) usernames).
  { destruct (final_stats_cases sys schedule usernames)
      as [Hall | (u & e & Hu & He)].
    - rewrite (final_stats_returns sys schedule usernames Hall) in H.
      congruence.
    - destruct (final_stats_raises sys schedule usernames u e Hu He)
        as [e' He'].
      congruence. }
  subst stats. split; [apply records_sublist |]. split.
  - pose proof (sublist_length _ _ (records_sublist sys usernames)) as Hlen.
    rewrite length_map in Hlen. lia.
  - apply Forall_forall. intros stat Hstat.
    apply list_elem_of_omap in Hstat as (u & Hu & Hr).
    rewrite <- (record_of_username sys u stat Hr). auto.
Qed.

(** X7 on the office, where carol has no record. *)
Lemma report_usernames_office :
  final_stats office [2; 0]%nat [lit "alice"; lit "carol"; lit "bob"]
  = Returned (omap (record_of office) [lit "alice"; lit "carol"; lit "bob"])
  /\ map username
         (omap (record_of office) [lit "alice"; lit "carol"; lit "bob"])
     `sublist_of` [lit "alice"; lit "carol"; lit "bob"]
  /\ map username
         (omap (record_of office) [lit "alice"; lit "carol"; lit "bob"])
     = [lit "alice"; lit "bob"].
Proof.
  assert (H : final_stats office [2; 0]%nat
                [lit "alice"; lit "carol"; lit "bob"]
              = Returned (omap (record_of office)
                            [lit "alice"; lit "carol"; lit "bob"]))
    by evaluate.
  split; [exact H |].
  split; [exact (proj1 (report_usernames office _ _ _ H)) | evaluate].
Defined.

(** ** The report and the schedule *)


(** ** When a run succeeds, and what a diagnostic means *)






(** ** Text *)

Lemma lstrip_idem (s : str) : lstrip (lstrip s) = lstrip s.
Proof.
  induction s as [| c s IH]; [reflexivity |].
  cbn. destruct (isspace c) eqn:Hc; [exact IH |]. cbn. now rewrite Hc.
Qed.

Lemma lstrip_head (s r : str) (c : char) :
  lstrip s = c :: r -> isspace c = false.
Proof.
  induction s as [| a s IH]; [discriminate |].
  cbn. destruct (isspace a) eqn:Ha; [exact IH |].
  intros H. injection H as <- _. exact Ha.
Qed.

Lemma lstrip_suffix (s : str) :
  exists pre, s = pre ++ lstrip s /\ Forall (fun c => isspace c = true) pre.
Proof.
  induction s as [| c s (pre & IH & Hpre)]; [now exists [] |].
  cbn. destruct (isspace c) eqn:Hc.
  - exists (c :: pre). split; [cbn; congruence | now constructor].
  - now exists [].
Qed.

Lemma lstrip_nil (s : str) :
  lstrip s = [] <-> Forall (fun c => isspace c = true) s.
Proof.
  split; [| apply lstrip_spaces].
  intros H. destruct (lstrip_suffix s) as (pre & Hs & Hpre).
  rewrite H, app_nil_r in Hs. now subst.
Qed.

Lemma strip_prefix (s : str) :
  exists pre post, s = pre ++ strip s ++ post
    /\ Forall (fun c => isspace c = true) pre
    /\ Forall (fun c => isspace c = true) post.
Proof.
  destruct (lstrip_suffix s) as (pre & Hs & Hpre).
  destruct (lstrip_suffix (rev (lstrip s))) as (post & Hr & Hpost).
  exists pre, (rev post). split; [| split; [exact Hpre |]].
  - unfold strip, rstrip. rewrite <- rev_app_distr, <- Hr, rev_involutive.
    exact Hs.
  - now apply Forall_rev.
Qed.

Lemma strip_nil (s : str) :
  strip s = [] <-> Forall (fun c => isspace c = true) s.
Proof.
  split; [| apply strip_spaces].
  intros H. destruct (strip_prefix s) as (pre & post & Hs & Hpre & Hpost).
  rewrite H in Hs. subst s. apply Forall_app. auto.
Qed.

Lemma lstrip_fixed (c : char) (r : str) :
  isspace c = false -> lstrip (c :: r) = c :: r.
Proof. intros H. cbn. now rewrite H. Qed.

Lemma lstrip_fixed_head (s : str) :
  lstrip s = s <-> match s with [] => True | c :: _ => isspace c = false end.
Proof.
  destruct s as [| c r]; [easy |]. split.
  - intros H. exact (lstrip_head _ _ _ H).
  - apply lstrip_fixed.
Qed.

(** A stripped text starts and ends with a character that is not
    whitespace: both [lstrip] and [rstrip] leave it as it is. *)
Lemma strip_ends (s : str) :
  lstrip (strip s) = strip s /\ lstrip (rev (strip s)) = rev (strip s).
Proof.
  split.
  - unfold strip, rstrip.
    destruct (lstrip_suffix (rev (lstrip s))) as (post & Hr & _).
    apply (f_equal (@rev char)) in Hr.
    rewrite rev_involutive, rev_app_distr in Hr.
    destruct (rev (lstrip (rev (lstrip s)))) as [| c r]; [reflexivity |].
    cbn [app] in Hr. apply lstrip_fixed. exact (lstrip_head _ _ _ Hr).
  - unfold strip, rstrip. rewrite rev_involutive. apply lstrip_idem.
Qed.

Lemma strip_fixed (s : str) :
  lstrip s = s -> lstrip (rev s) = rev s -> strip s = s.
Proof.
  intros H1 H2. unfold strip, rstrip. rewrite H1, H2. apply rev_involutive.
Qed.

Lemma strip_idem (s : str) : strip (strip s) = strip s.
Proof. destruct (strip_ends s). now apply strip_fixed. Qed.

Lemma lstrip_Forall (P : char -> Prop) (s : str) :
  Forall P s -> Forall P (lstrip s).
Proof.
  induction 1 as [| c s Hc Hs IH]; [constructor |].
  cbn. destruct (isspace c); [exact IH | now constructor].
Qed.

Lemma strip_Forall (P : char -> Prop) (s : str) :
  Forall P s -> Forall P (strip s).
Proof.
  intros H. unfold strip, rstrip.
  apply Forall_rev, lstrip_Forall, Forall_rev, lstrip_Forall, H.
Qed.

Lemma split_on_Forall (P : char -> Prop) (sep : char) (s : str) :
  Forall P s -> Forall (Forall P) (split_on sep s).
Proof.
  induction 1 as [| c s Hc Hs IH]; [repeat constructor |].
  cbn. destruct (c =? sep)%N; [now repeat constructor |].
  destruct (split_on sep s) as [| w ws]; [repeat constructor; exact Hc |].
  inversion IH; subst. constructor; [now constructor | assumption].
Qed.

Lemma split_on_free (sep : char) (s : str) :
  Forall (fun w => sep ∉ w) (split_on sep s).
Proof.
  induction s as [| c s IH]; [repeat constructor; apply not_elem_of_nil |].
  cbn. destruct (c =? sep)%N eqn:Hc.
  - constructor; [apply not_elem_of_nil | exact IH].
  - apply N.eqb_neq in Hc.
    destruct (split_on sep s) as [| w ws].
    + repeat constructor. intros H. apply list_elem_of_singleton in H.
      congruence.
    + inversion IH; subst. constructor; [| assumption].
      intros H. apply elem_of_cons in H as [H | H]; [congruence | auto].
Qed.

Lemma split_on_whole (sep : char) (s : str) :
  sep ∉ s -> split_on sep s = [s].
Proof.
  induction s as [| c s IH]; [reflexivity |].
  intros H. apply not_elem_of_cons in H as [Hc Hs].
  cbn. apply N.eqb_neq in Hc. rewrite N.eqb_sym, Hc || rewrite Hc.
  now rewrite (IH Hs).
Qed.

Lemma split_on_app (sep : char) (a b : str) :
  sep ∉ a -> split_on sep (a ++ sep :: b) = a :: split_on sep b.
Proof.
  induction a as [| c a IH]; intros H.
  - cbn. now rewrite N.eqb_refl.
  - apply not_elem_of_cons in H as [Hc Ha].
    cbn. apply not_eq_sym, N.eqb_neq in Hc. rewrite Hc.
    now rewrite (IH Ha).
Qed.

(** ** The identity of a record *)

Lemma utf8_decode_nil (bs : list N) : utf8_decode bs = Some [] -> bs = [].
Proof.
  assert (Hc : forall (x : char) (o : option str), cons x <$> o <> Some [])
    by (intros x [l |]; discriminate).
  destruct bs as [| b0 r0]; [reflexivity |]. cbn [utf8_decode].
  repeat match goal with
         | |- (if ?b then _ else _) = _ -> _ => destruct b
         | |- match ?l with [] => _ | _ :: _ => _ end = _ -> _ => destruct l
         end;
    first [discriminate | intros H; now apply Hc in H].
Qed.

Lemma decode_nil (b : bytes) : decode b = Some [] <-> b = [].
Proof.
  split; [| now intros ->].
  intros H. apply utf8_decode_nil in H. now destruct b.
Qed.

Lemma identity_of_cases (sys : str -> Process) (username : str) :
  decodable (sys (identity_command username)) ->
  (returncode (sys (identity_command username)) <> 0
   /\ identity_of sys username = None)
  \/ (returncode (sys (identity_command username)) = 0
      /\ output (sys (identity_command username)) = []
      /\ identity_of sys username = None)
  \/ (returncode (sys (identity_command username)) = 0
      /\ exists out,
           decode (output (sys (identity_command username))) = Some out
           /\ out <> []
           /\ identity_of sys username = Some (strip out)).
Proof.
  unfold decodable, identity_of.
  destruct (Z.eq_dec (returncode (sys (identity_command username))) 0)
    as [Hrc | Hrc].
  - rewrite Hrc. cbn [Z.eqb]. intros [out Hd]. right. rewrite Hd.
    destruct out as [| c s].
    + left. apply decode_nil in Hd. auto.
    + right. split; [reflexivity |]. exists (c :: s). auto.
  - intros _. left. apply Z.eqb_neq in Hrc as Hrc'. rewrite Hrc'. auto.
Qed.

(** X11.  The identity of a record.  It is absent exactly when the
    identity lookup exited non-zero or wrote nothing; it is the empty text
    exactly when the lookup succeeded and wrote only whitespace; otherwise
    it is the output without the whitespace around it.  The table shows
    [none] for an absent identity, for the empty one, and for an identity
    that reads [none]; the structured report writes [null] for the absent
    identity only. *)
Theorem identity_column (sys : str -> Process) (user : str)
    (stat : UserStat) :
  collect sys user = Returned (Some stat) ->
  (upn stat = None <->
   returncode (sys (identity_command user)) <> 0
   \/ output (sys (identity_command user)) = [])
  /\ (upn stat = Some [] <->
      returncode (sys (identity_command user)) = 0
      /\ exists out,
           decode (output (sys (identity_command user))) = Some out
           /\ out <> [] /\ Forall (fun c => isspace c = true) out)
  /\ (forall s, upn stat = Some s ->
        strip s = s
        /\ exists out,
             decode (output (sys (identity_command user))) = Some out
             /\ s = strip out)
  /\ (upn_or_none (upn stat) = lit "none" <->
      upn stat = None \/ upn stat = Some [] \/ upn stat = Some (lit "none"))
  /\ ((exists rest,
         to_json stat =
         lit "{" ++ json_key "username" ++ lit ": " ++ json_str (username stat)
         ++ lit ", " ++ json_key "upn" ++ lit ": null" ++ rest)
      <-> upn stat = None).
Proof.
  intros Hc.
  assert (Hupn : upn stat = identity_of sys user
                 /\ decodable (sys (identity_command user))).
  { destruct (collect_inv sys user)
      as [[_ H] | [(_ & err & _ & _ & H) | [(_ & _ & H)
         | [(Hd & out & rows & _ & _ & _ & H) | (_ & out & _ & _ & _ & H)]]]];
      rewrite H in Hc; try discriminate.
    injection Hc as <-. auto. }
  destruct Hupn as [Hupn Hd]. rewrite Hupn.
  split; [| split; [| split; [| split]]].
  - destruct (identity_of_cases sys user Hd)
      as [[Hrc ->] | [(Hrc & Ho & ->) | (Hrc & out & Ho & Hne & ->)]].
    + tauto.
    + tauto.
    + split; [discriminate |]. intros [H | H]; [contradiction |].
      rewrite H in Ho. injection Ho as <-. contradiction.
  - destruct (identity_of_cases sys user Hd)
      as [[Hrc ->] | [(Hrc & Ho & ->) | (Hrc & out & Ho & Hne & ->)]].
    + split; [discriminate | tauto].
    + split; [discriminate |]. intros (_ & out & Hout & Hne & _).
      rewrite Ho in Hout. injection Hout as <-. contradiction.
    + split.
      * intros H. injection H as H. apply strip_nil in H. eauto.
      * intros (_ & out' & Hout & _ & Hsp). rewrite Ho in Hout.
        injection Hout as <-. f_equal. now apply strip_nil.
  - intros s.
    destruct (identity_of_cases sys user Hd)
      as [[Hrc ->] | [(Hrc & Ho & ->) | (Hrc & out & Ho & Hne & ->)]];
      try discriminate.
    intros H. injection H as <-. split; [apply strip_idem | eauto].
  - destruct (identity_of sys user) as [[| c s] |]; cbn.
    + tauto.
    + split; [intros ->; auto |].
      intros [H | [H | H]]; try discriminate. congruence.
    + tauto.
  - unfold to_json. rewrite json_dumps_dict_of, Hupn.
    destruct (identity_of sys user) as [s |]; split.
    + intros [rest H]. repeat (apply app_inv_head in H). discriminate.
    + discriminate.
    + reflexivity.
    + intros _. eexists. repeat f_equal.
Qed.

(** X11 on alice, whose identity lookup prints only a space and a
    newline. *)
Lemma identity_column_office :
  collect office_blank_id (lit "alice") =
  Returned (Some {| username := lit "alice"; upn := Some [];
                    rss_total := 300; pmem_total := float_lit "2.0";
                    pcpu_total := float_lit "3.0" |})
  /\ to_table_row {| username := lit "alice"; upn := Some [];
                     rss_total := 300; pmem_total := float_lit "2.0";
                     pcpu_total := float_lit "3.0" |}
     = lit "alice" ++ TAB ++ lit "none" ++ TAB ++ lit "300" ++ TAB
       ++ lit "2.00" ++ TAB ++ lit "3.00"
  /\ (upn_or_none (Some []) = lit "none" <->
      Some [] = @None str \/ Some [] = @Some str []
      \/ Some [] = Some (lit "none")).
Proof.
  assert (H : collect office_blank_id (lit "alice") =
              Returned (Some {| username := lit "alice"; upn := Some [];
                                rss_total := 300;
                                pmem_total := float_lit "2.0";
                                pcpu_total := float_lit "3.0" |}))
    by evaluate.
  split; [exact H |]. split; [evaluate |].
  exact (proj1 (proj2 (proj2 (proj2
           (identity_column office_blank_id (lit "alice") _ H))))).
Defined.

(** ** The usernames of a run *)

Lemma strip_elem (c : char) (s : str) : c ∈ strip s -> c ∈ s.
Proof.
  intros H. destruct (strip_prefix s) as (pre & post & Hs & _).
  rewrite Hs. rewrite !elem_of_app. auto.
Qed.

Lemma strip_trimmed (u : str) :
  strip u = u -> lstrip u = u /\ lstrip (rev u) = rev u.
Proof. intros H. rewrite <- H. apply strip_ends. Qed.

Lemma lstrip_app_fixed (s t : str) :
  s <> [] -> lstrip s = s -> lstrip (s ++ t) = s ++ t.
Proof.
  destruct s as [| c r]; [contradiction |]. intros _ H.
  apply lstrip_head in H. cbn. now rewrite H.
Qed.

Lemma join_cons (sep p q : str) (ps : list str) :
  join sep (p :: q :: ps) = p ++ sep ++ join sep (q :: ps).
Proof. reflexivity. Qed.

Lemma join_trimmed (names : list str) :
  names <> [] ->
  Forall (fun u => u <> [] /\ strip u = u /\ LF ∉ u) names ->
  join NL names <> []
  /\ lstrip (join NL names) = join NL names
  /\ lstrip (rev (join NL names)) = rev (join NL names).
Proof.
  intros Hne Hall. induction Hall as [| p ps (Hp & Hs & _) Hps IH];
    [contradiction |].
  destruct (strip_trimmed p Hs) as [Hl Hr].
  destruct ps as [| q ps]; [cbn [join]; auto |].
  destruct IH as (Hj & _ & Hjr); [discriminate |].
  rewrite join_cons. split; [| split].
  - destruct p; [contradiction | discriminate].
  - now apply lstrip_app_fixed.
  - rewrite !rev_app_distr, <- app_assoc. apply lstrip_app_fixed; [| exact Hjr].
    intros H. apply (f_equal (@rev char)) in H.
    rewrite rev_involutive in H. contradiction.
Qed.

Lemma split_on_join (names : list str) :
  names <> [] ->
  Forall (fun u => LF ∉ u) names ->
  split_on LF (join NL names) = names.
Proof.
  intros Hne Hall. induction Hall as [| p ps Hp Hps IH]; [contradiction |].
  destruct ps as [| q ps].
  - cbn [join]. now apply split_on_whole.
  - rewrite join_cons. change (NL ++ join NL (q :: ps))
      with (LF :: join NL (q :: ps)).
    rewrite (split_on_app LF p _ Hp), IH; [reflexivity | discriminate].
Qed.

(** X12.  Every username a run looks up is trimmed and holds no line
    feed: it is a line of the group command's output without the
    whitespace around it.  Whitespace inside a line is kept. *)
Theorem usernames_trimmed (usernames : str) :
  Forall (fun u => strip u = u /\ LF ∉ u) (usernames_of usernames)
  /\ usernames_of (lit " alice smith " ++ NL ++ lit "bob") =
     [lit "alice smith"; lit "bob"].
Proof.
  split; [| evaluate].
  unfold usernames_of. apply Forall_map.
  eapply Forall_impl; [apply (split_on_free LF) |].
  intros w Hw. cbn beta. split; [apply strip_idem |].
  intros H. apply Hw. now apply strip_elem.
Qed.

(** X13.  A group command that prints names one per line, with or without
    a final newline, gives back exactly those names, in order and with
    repetitions, provided no name is empty, starts or ends with
    whitespace, or holds a line feed. *)
Theorem usernames_of_lines (names : list str) :
  names <> [] ->
  Forall (fun u => u <> [] /\ strip u = u /\ LF ∉ u) names ->
  usernames_of (join NL names ++ NL) = names
  /\ usernames_of (join NL names) = names.
Proof.
  intros Hne Hall.
  destruct (join_trimmed names Hne Hall) as (Hj & Hl & Hr).
  assert (Hstrip : strip (join NL names) = join NL names)
    by now apply strip_fixed.
  assert (Hstrip' : strip (join NL names ++ NL) = join NL names).
  { unfold strip, rstrip. rewrite (lstrip_app_fixed _ NL Hj Hl).
    rewrite rev_app_distr. change (rev NL ++ rev (join NL names))
      with (LF :: rev (join NL names)).
    change (lstrip (LF :: rev (join NL names)))
      with (lstrip (rev (join NL names))).
    rewrite Hr. apply rev_involutive. }
  assert (Hmap : map strip names = names).
  { clear -Hall. induction Hall as [| p ps (_ & Hs & _) _ IH];
      [reflexivity |]. cbn. now rewrite Hs, IH. }
  assert (Hfree : Forall (fun u => LF ∉ u) names).
  { eapply Forall_impl; [exact Hall |]. cbn beta. tauto. }
  unfold usernames_of. rewrite Hstrip, Hstrip'.
  now rewrite (split_on_join names Hne Hfree).
Qed.

(** X13 on two names, one of them with a space inside. *)
Lemma usernames_of_lines_two :
  usernames_of (join NL [lit "alice smith"; lit "bob"] ++ NL)
  = [lit "alice smith"; lit "bob"]
  /\ usernames_of (join NL [lit "alice smith"; lit "bob"])
     = [lit "alice smith"; lit "bob"].
Proof.
  apply (usernames_of_lines [lit "alice smith"; lit "bob"]);
    [discriminate |].
  repeat (apply List.Forall_cons;
          [split; [discriminate | split; [evaluate | text_free]] |]).
  apply List.Forall_nil.
Defined.

(** ** [int] reads back what [str] writes *)










(** ** The fields of a table row *)


Lemma is_digit_printable (c : char) : is_digit c -> printable c.
Proof. unfold is_digit, printable. lia. Qed.

Lemma sign_str_printable (neg : bool) : Forall printable (sign_str neg).
Proof.
  destruct neg; [| constructor].
  repeat constructor; unfold printable; cbn; lia.
Qed.

Lemma str_of_int_printable (z : Z) : Forall printable (str_of_int z).
Proof.
  assert (H : forall n, Forall printable (str_of_N n)).
  { intros n. eapply Forall_impl; [apply str_of_N_digits |].
    apply is_digit_printable. }
  destruct z; cbn [str_of_int]; [apply H | apply H |].
  apply Forall_app. split; [apply (sign_str_printable true) | apply H].
Qed.







(** ** The characters of the structured report *)

(** Literal text is printable. *)
Ltac text_printable :=
  match goal with
  | |- Forall printable ?s =>
    let s' := eval vm_compute in s in
    change (Forall printable s')
  end;
  repeat (apply List.Forall_cons; [unfold printable; lia |]);
  apply List.Forall_nil.

Ltac bounds :=
  repeat match goal with
         | H : _ && _ = true |- _ => apply andb_true_iff in H as [? ?]
         | H : in_range _ _ _ = true |- _ => unfold in_range in H
         | H : is_cont _ = true |- _ => unfold is_cont in H
         | H : (_ <=? _)%N = true |- _ => apply N.leb_le in H
         | H : (_ <? _)%N = true |- _ => apply N.ltb_lt in H
         | H : (_ <? _)%N = false |- _ => apply N.ltb_ge in H
         | H : (_ =? _)%N = true |- _ => apply N.eqb_eq in H
         | H : (_ =? _)%N = false |- _ => apply N.eqb_neq in H
         end.

Lemma utf8_decode_code_points (n : nat) :
  forall (bs : list N) (s : str),
    (length bs <= n)%nat -> utf8_decode bs = Some s -> Forall code_point s.
Proof.
  induction n as [| n IH]; intros bs s Hlen.
  { destruct bs; [| cbn in Hlen; lia]. intros [= <-]. constructor. }
  destruct bs as [| b0 r0]; [intros [= <-]; constructor |].
  cbn [utf8_decode]. cbn [length] in Hlen.
  destruct (b0 <? 128)%N eqn:H0.
  { destruct (utf8_decode r0) as [t |] eqn:Hr; [| discriminate].
    intros [= <-]. constructor.
    - bounds. unfold code_point. lia.
    - apply (IH r0); [lia | exact Hr]. }
  destruct (in_range 194 223 b0) eqn:H1.
  { destruct r0 as [| b1 r1]; [discriminate |].
    destruct (is_cont b1) eqn:H2; [| discriminate].
    destruct (utf8_decode r1) as [t |] eqn:Hr; [| discriminate].
    intros [= <-]. constructor.
    - bounds. unfold code_point, low6. lia.
    - apply (IH r1); [cbn [length] in Hlen; lia | exact Hr]. }
  destruct (in_range 224 239 b0) eqn:H2.
  { destruct r0 as [| b1 [| b2 r2]]; try discriminate.
    destruct (in_range _ _ b1 && is_cont b2) eqn:H3; [| discriminate].
    destruct (utf8_decode r2) as [t |] eqn:Hr; [| discriminate].
    intros [= <-]. constructor.
    - destruct (b0 =? 224)%N, (b0 =? 237)%N; bounds;
        unfold code_point, low6; lia.
    - apply (IH r2); [cbn [length] in Hlen; lia | exact Hr]. }
  destruct (in_range 240 244 b0) eqn:H3; [| discriminate].
  destruct r0 as [| b1 [| b2 [| b3 r3]]]; try discriminate.
  destruct (in_range _ _ b1 && is_cont b2 && is_cont b3) eqn:H4;
    [| discriminate].
  destruct (utf8_decode r3) as [t |] eqn:Hr; [| discriminate].
  intros [= <-]. constructor.
  - destruct (b0 =? 240)%N eqn:Ha, (b0 =? 244)%N eqn:Hb; bounds;
      unfold code_point, low6; lia.
  - apply (IH r3); [cbn [length] in Hlen; lia | exact Hr].
Qed.

Lemma decode_code_points (b : bytes) (s : str) :
  decode b = Some s -> Forall code_point s.
Proof. apply (utf8_decode_code_points _ _ _ (le_n _)). Qed.

Lemma hex_digit_printable (n : N) : (n < 16)%N -> printable (hex_digit n).
Proof.
  intros H. unfold hex_digit, printable.
  destruct (n <? 10)%N eqn:Hn; bounds; lia.
Qed.

Lemma u_escape_printable (n : N) :
  (n < 65536)%N -> Forall printable (u_escape n).
Proof.
  intros H. unfold u_escape.
  apply Forall_app. split; [text_printable |].
  repeat (apply List.Forall_cons;
          [apply hex_digit_printable;
           first [ apply N.mod_lt; discriminate
                 | apply N.Div0.div_lt_upper_bound; lia ] |]).
  apply List.Forall_nil.
Qed.

Lemma json_char_printable (c : char) :
  code_point c -> Forall printable (json_char c).
Proof.
  intros Hc. unfold json_char.
  repeat match goal with
         | |- Forall printable (if (c =? ?k)%N then _ else _) =>
           destruct (c =? k)%N; [text_printable |]
         end.
  destruct (in_range 32 126 c) eqn:Hr.
  { bounds. repeat constructor; assumption. }
  destruct (c <? 65536)%N eqn:Hlt; bounds.
  { now apply u_escape_printable. }
  unfold code_point in Hc. apply Forall_app. split; apply u_escape_printable.
  - assert (((c - 65536) / 1024 < 1024)%N)
      by (apply N.Div0.div_lt_upper_bound; lia).
    lia.
  - assert (((c - 65536) mod 1024 < 1024)%N)
      by (apply N.mod_lt; discriminate).
    lia.
Qed.

Lemma json_str_printable (s : str) :
  Forall code_point s -> Forall printable (json_str s).
Proof.
  intros H. unfold json_str.
  apply Forall_app. split; [text_printable |].
  apply Forall_app. split; [| text_printable].
  induction H as [| c s Hc _ IH]; [constructor |].
  cbn [map concat]. apply Forall_app. split; [| exact IH].
  now apply json_char_printable.
Qed.

Lemma strip_zeros_Forall (P : char -> Prop) (ds : str) :
  Forall P ds -> Forall P (strip_zeros ds).
Proof.
  induction 1 as [| c ds Hc Hds IH]; [constructor |].
  assert (H : strip_zeros (c :: ds) = strip_zeros ds
              \/ strip_zeros (c :: ds) = c :: ds).
  { destruct (N.eq_dec c 48%N) as [-> | Hne]; [left; reflexivity |].
    right. destruct c as [| p]; [reflexivity |].
    do 6 (try destruct p as [p | p |]); try reflexivity. contradiction. }
  destruct H as [-> | ->]; [exact IH | now constructor].
Qed.

Lemma shortest_digits_digits (m : positive) (e : Z) :
  Forall is_digit (shortest_digits m e).1.
Proof.
  unfold shortest_digits.
  destruct (match e with
            | Z.neg p => (Z.pos m, Z.pow_pos 2 p)
            | _ => (Z.pos m * 2 ^ e, 1)
            end) as [num den].
  destruct (shortest_from _ _ _ _ _ _) as [c ce]. cbn [fst].
  apply Forall_rev, strip_zeros_Forall, Forall_rev, str_of_N_digits.
Qed.

Lemma zeros_printable (n : Z) : Forall printable (zeros n).
Proof.
  unfold zeros. induction (Z.to_nat n) as [| k IH]; [constructor |].
  cbn [repeat]. constructor; [unfold printable; lia | exact IH].
Qed.

Lemma repr_layout_printable (ds : str) (decpt : Z) :
  Forall is_digit ds -> Forall printable (repr_layout ds decpt).
Proof.
  intros Hd.
  assert (Hp : Forall printable ds)
    by (eapply Forall_impl; [exact Hd | apply is_digit_printable]).
  assert (HN : forall n, Forall printable (str_of_N n)).
  { intros n. eapply Forall_impl; [apply str_of_N_digits |].
    apply is_digit_printable. }
  unfold repr_layout.
  destruct ((decpt <=? -4) || (16 <? decpt)).
  - apply Forall_app. split; [now apply Forall_take |].
    apply Forall_app. split.
    { pose proof (Forall_drop printable 1 ds Hp) as Hdrop.
      destruct (drop 1 ds); [constructor |].
      apply Forall_app. split; [text_printable | exact Hdrop]. }
    apply Forall_app. split; [text_printable |].
    apply Forall_app. split.
    { destruct (decpt - 1 <? 0); text_printable. }
    destruct (Z.abs (decpt - 1) <? 10); [| apply HN].
    apply Forall_app. split; [text_printable | apply HN].
  - destruct (decpt <=? 0).
    + apply Forall_app. split; [text_printable |].
      apply Forall_app. split; [apply zeros_printable | exact Hp].
    + destruct (Z.of_nat (length ds) <=? decpt).
      * apply Forall_app. split; [exact Hp |].
        apply Forall_app. split; [apply zeros_printable | text_printable].
      * apply Forall_app. split; [now apply Forall_take |].
        apply Forall_app. split; [text_printable | now apply Forall_drop].
Qed.

Lemma json_float_printable (x : float) : Forall printable (json_float x).
Proof.
  destruct x as [s | s | | s m e]; cbn [json_float float_repr].
  - destruct s; text_printable.
  - destruct s; text_printable.
  - text_printable.
  - pose proof (shortest_digits_digits m e) as Hd.
    destruct (shortest_digits m e) as [ds decpt]. cbn [fst] in Hd.
    apply Forall_app. split; [apply sign_str_printable |].
    now apply repr_layout_printable.
Qed.

Lemma join_printable (sep : str) (parts : list str) :
  Forall printable sep -> Forall (Forall printable) parts ->
  Forall printable (join sep parts).
Proof.
  intros Hsep. induction 1 as [| p ps Hp Hps IH]; [constructor |].
  destruct ps as [| q ps]; [exact Hp |].
  change (join sep (p :: q :: ps)) with (p ++ sep ++ join sep (q :: ps)).
  apply Forall_app. split; [exact Hp |]. apply Forall_app. auto.
Qed.

Lemma to_json_printable (stat : UserStat) :
  unicode_stat stat -> Forall printable (to_json stat).
Proof.
  intros [Hu Hi]. unfold to_json. rewrite json_dumps_dict_of.
  rewrite !Forall_app. conjuncts;
    lazymatch goal with
    | |- Forall printable (json_float _) => apply json_float_printable
    | |- Forall printable (str_of_int _) => apply str_of_int_printable
    | |- Forall printable (json_str _) => now apply json_str_printable
    | |- Forall printable (match upn stat with _ => _ end) =>
      destruct (upn stat) as [s |];
      [apply json_str_printable; now apply Hi | text_printable]
    | |- _ => text_printable
    end.
Qed.

Lemma json_line_printable (stats : list UserStat) :
  Forall unicode_stat stats ->
  exists line,
    report_lines stats (lit "json") = [line] /\ Forall printable line.
Proof.
  intros H. rewrite report_lines_json, json_dumps_list. eexists.
  split; [reflexivity |].
  apply Forall_app. split; [text_printable |].
  apply Forall_app. split; [| text_printable].
  apply join_printable; [text_printable |].
  rewrite map_map. apply Forall_map.
  eapply Forall_impl; [exact H |]. apply to_json_printable.
Qed.

Lemma record_of_unicode (sys : str -> Process) (u : str) (stat : UserStat) :
  Forall code_point u -> record_of sys u = Some stat -> unicode_stat stat.
Proof.
  intros Hu. unfold record_of.
  destruct (collect_inv sys u)
    as [[_ Hc] | [(_ & err & _ & _ & Hc) | [(_ & _ & Hc)
       | [(_ & out & rows & _ & _ & _ & Hc) | (_ & out & _ & _ & _ & Hc)]]]];
    rewrite Hc; try discriminate.
  intros [= <-]. split; [exact Hu |]. cbn [upn]. unfold identity_of.
  intros s.
  destruct (returncode (sys (identity_command u)) =? 0); [| discriminate].
  destruct (decode (output (sys (identity_command u)))) as [[| c t] |] eqn:Hd;
    try discriminate.
  intros [= <-]. apply strip_Forall. exact (decode_code_points _ _ Hd).
Qed.

(** X15.  The structured report of a run that ends with exit status 0 is
    one line of printable ASCII characters, whatever the commands wrote:
    line feeds, tabs, quotes, control characters and characters outside
    ASCII in a username or an identity are written as escapes. *)
Theorem json_output_printable (sys : str -> Process) (schedule : list nat) :
  exit_status (script sys schedule (lit "json")) = 0 ->
  exists line,
    stdout (script sys schedule (lit "json")) = line ++ NL
    /\ Forall printable line.
Proof.
  destruct (script_cases sys schedule (lit "json"))
    as [(e & Hg & ->) | [(us & u & e & log & Hg & Hu & He & ->)
                         | (us & log & Hg & Hall & ->)]];
    cbn [exit_status stdout]; try discriminate.
  intros _.
  assert (Hus : Forall code_point us).
  { destruct (run_command_cases sys group_command)
      as [(out & _ & Hd & Hr) | [(err & _ & _ & Hr) | [_ Hr]]];
      rewrite Hr in Hg; try discriminate.
    injection Hg as <-. exact (decode_code_points _ _ Hd). }
  assert (Hstats : Forall unicode_stat
                     (omap (record_of sys) (usernames_of us))).
  { apply Forall_forall. intros stat Hstat.
    apply list_elem_of_omap in Hstat as (u & Hu & Hr).
    apply (record_of_unicode sys u stat); [| exact Hr].
    unfold usernames_of in Hu.
    apply (list_elem_of_fmap_1 strip) in Hu as (w & -> & Hw).
    apply strip_Forall.
    pose proof (split_on_Forall code_point LF (strip us)
                  (strip_Forall _ _ Hus)) as Hsplit.
    rewrite Forall_forall in Hsplit. now apply Hsplit. }
  destruct (json_line_printable _ Hstats) as (line & -> & Hline).
  exists line. split; [| exact Hline].
  unfold text_of. cbn [map concat]. now rewrite app_nil_r.
Qed.

(** X15 on an office where the identity lookup of alice prints two lines:
    the line feed between them is written as an escape. *)
Lemma json_output_printable_office :
  exit_status (script office_two_line_id [] (lit "json")) = 0
  /\ exists line,
       stdout (script office_two_line_id [] (lit "json")) = line ++ NL
       /\ Forall printable line.
Proof.
  assert (H : exit_status (script office_two_line_id [] (lit "json")) = 0)
    by evaluate.
  split; [exact H |].
  exact (json_output_printable office_two_line_id [] H).
Defined.

(** ** Machines that write ASCII *)

Lemma decode_ascii (b : bytes) :
  is_ascii b = true -> decode b = Some (map Byte.to_N b).
Proof.
  unfold decode. induction b as [| x b IH]; [reflexivity |].
  cbn [is_ascii forallb map utf8_decode]. intros H.
  apply andb_true_iff in H as [Hx Hb]. rewrite Hx.
  fold (is_ascii b) in Hb. now rewrite (IH Hb).
Qed.

Lemma ascii_decodable (sys : str -> Process) (command : str) :
  ascii_machine sys -> decodable (sys command).
Proof.
  intros H. destruct (H command) as [Ho He]. unfold decodable.
  rewrite (decode_ascii _ Ho), (decode_ascii _ He).
  destruct (returncode (sys command) =? 0); eauto.
Qed.

Lemma machine_ascii (known : list (str * Process)) :
  Forall (fun cp => is_ascii (output cp.2) && is_ascii (error cp.2) = true)
         known ->
  ascii_machine (machine known).
Proof.
  induction 1 as [| [c p] known Hp _ IH]; intros command.
  - split; reflexivity.
  - cbn [machine]. destruct (str_eqb c command); [| apply IH].
    now apply andb_true_iff in Hp.
Qed.

(** X16.  On a machine whose commands write nothing but ASCII, decoding
    never fails: [run_command] returns the output as written when the
    exit status is zero and raises [CommandRunException] otherwise; a
    collection never raises [UnicodeDecodeError], and returns no record
    exactly when the process lookup exits non-zero; and the diagnostic of a
    run is never a [UnicodeDecodeError]. *)
Theorem ascii_machine_decodes (sys : str -> Process) :
  ascii_machine sys ->
  (forall command,
     run sys (run_command command) =
     if returncode (sys command) =? 0
     then Returned (map Byte.to_N (output (sys command)))
     else Raised (CommandRunException
                    (lit "Error running command " ++ command ++ lit ": "
                     ++ map Byte.to_N (error (sys command)))))
  /\ (forall u, collect sys u <> Raised UnicodeDecodeError)
  /\ (forall u, collect sys u = Returned None <->
                returncode (sys (process_command u)) <> 0)
  /\ (forall schedule output_format,
        traceback (script sys schedule output_format)
        <> Some UnicodeDecodeError).
Proof.
  intros Hsys.
  assert (Hcollect : forall u, collect sys u <> Raised UnicodeDecodeError).
  { intros u.
    destruct (collect_inv sys u)
      as [[Hn _] | [(_ & err & _ & _ & Hc) | [(_ & Hn & _)
         | [(_ & out & rows & _ & _ & _ & Hc) | (_ & out & _ & _ & _ & Hc)]]]];
      try (rewrite Hc; discriminate);
      exfalso; apply Hn; now apply ascii_decodable. }
  split; [| split; [exact Hcollect | split]].
  - intros command. destruct (Hsys command) as [Ho He].
    destruct (Z.eq_dec (returncode (sys command)) 0) as [Hrc | Hrc].
    + rewrite Hrc. cbn [Z.eqb].
      apply run_command_zero; [exact Hrc | now apply decode_ascii].
    + apply Z.eqb_neq in Hrc as Hrc'. rewrite Hrc'.
      apply run_command_nonzero; [exact Hrc | now apply decode_ascii].
  - intros u.
    destruct (collect_inv sys u)
      as [[Hn _] | [(_ & err & Hrc & _ & Hc) | [(_ & Hn & _)
         | [(_ & out & rows & Hrc & _ & _ & Hc)
            | (_ & out & Hrc & _ & _ & Hc)]]]];
      try (exfalso; apply Hn; now apply ascii_decodable);
      rewrite Hc; split; try discriminate; try tauto.
    all: intros H; contradiction.
  - intros schedule output_format.
    destruct (script_cases sys schedule output_format)
      as [(e & Hg & ->) | [(us & u & e & log & Hg & Hu & He & ->)
                           | (us & log & Hg & Hall & ->)]];
      cbn [traceback]; [| | discriminate].
    + intros [= ->].
      destruct (run_command_cases sys group_command)
        as [(out & _ & _ & Hr) | [(err & _ & _ & Hr) | [Hn Hr]]];
        try congruence.
      destruct (ascii_decodable sys group_command Hsys) as [x Hx].
      congruence.
    + intros [= ->]. exact (Hcollect u He).
Qed.

(** X16 on the office. *)
Lemma ascii_machine_decodes_office :
  ascii_machine office
  /\ (forall u, collect office u <> Raised UnicodeDecodeError)
  /\ (forall schedule output_format,
        traceback (script office schedule output_format)
        <> Some UnicodeDecodeError).
Proof.
  assert (H : ascii_machine office).
  { apply machine_ascii.
    repeat (apply List.Forall_cons; [evaluate |]). apply List.Forall_nil. }
  split; [exact H |].
  destruct (ascii_machine_decodes office H) as (_ & Hc & _ & Ht).
  split; [exact Hc | exact Ht].
Defined.

(** ** The totals and the order of the process table *)

Lemma mapM_perm {A B : Type} (f : A -> option B) (l l' : list A) :
  l ≡ₚ l' ->
  forall k, mapM f l = Some k -> exists k', mapM f l' = Some k' /\ k ≡ₚ k'.
Proof.
  induction 1 as [| x l l' _ IH | x y l | l l' l'' _ IH1 _ IH2]; intros k.
  - intros [= <-]. now exists [].
  - simpl. destruct (f x) as [b |]; [| discriminate].
    destruct (mapM f l) as [r |]; [| discriminate].
    intros [= <-]. destruct (IH r eq_refl) as (r' & -> & Hr).
    exists (b :: r'). split; [reflexivity | now constructor].
  - simpl. destruct (f y) as [b |]; [| discriminate].
    destruct (f x) as [a |]; [| discriminate].
    destruct (mapM f l) as [r |]; [| discriminate].
    intros [= <-]. exists (a :: b :: r). split; [reflexivity | constructor].
  - intros Hk. destruct (IH1 k Hk) as (k' & Hk' & Hp).
    destruct (IH2 k' Hk') as (k'' & Hk'' & Hp').
    exists k''. split; [exact Hk'' | now transitivity k'].
Qed.

Lemma Z_sum_perm (l l' : list Z) : l ≡ₚ l' -> Z_sum l = Z_sum l'.
Proof.
  unfold Z_sum.
  induction 1 as [| x l l' _ IH | x y l | l l' l'' _ IH1 _ IH2];
    cbn [foldr]; lia.
Qed.

(** X17.  The resident-memory total of a record does not depend on the
    order in which the process table lists the processes: two tables with
    the same lines in a different order give the same total.  (The
    percentage totals are float sums in line order, and do depend on
    it.) *)
Theorem rss_total_order_independent (sys sys' : str -> Process) (u : str)
    (stat stat' : UserStat) (out out' : str) :
  collect sys u = Returned (Some stat) ->
  collect sys' u = Returned (Some stat') ->
  decode (output (sys (process_command u))) = Some out ->
  decode (output (sys' (process_command u))) = Some out' ->
  lines_of out ≡ₚ lines_of out' ->
  rss_total stat = rss_total stat'.
Proof.
  intros Hc Hc' Ho Ho' Hperm.
  assert (Hrss : forall (s : str -> Process) (st : UserStat) (o : str),
             collect s u = Returned (Some st) ->
             decode (output (s (process_command u))) = Some o ->
             exists rows, mapM parse_line (lines_of o) = Some rows
                          /\ rss_total st = Z_sum (map (fun r => r.1.1) rows)).
  { intros s st o H Hd.
    destruct (collect_inv s u)
      as [[_ E] | [(_ & err & _ & _ & E) | [(_ & _ & E)
         | [(_ & o' & rows & _ & Hd' & Hrows & E)
            | (_ & o' & _ & _ & _ & E)]]]];
      rewrite E in H; try discriminate.
    injection H as <-. rewrite Hd in Hd'. injection Hd' as <-.
    exists rows. auto. }
  destruct (Hrss sys stat out Hc Ho) as (rows & Hrows & ->).
  destruct (Hrss sys' stat' out' Hc' Ho') as (rows' & Hrows' & ->).
  destruct (mapM_perm parse_line _ _ Hperm rows Hrows) as (k & Hk & Hp).
  rewrite Hrows' in Hk. injection Hk as <-.
  apply Z_sum_perm. now apply Permutation_map.
Qed.

(** X17 on alice with three processes, listed in one order and in the
    reverse order: the resident-memory total is the same, the
    memory-percentage total is not. *)
Lemma rss_total_order_independent_office :
  collect office_abc (lit "alice") =
  Returned (Some {| username := lit "alice";
                    upn := Some (lit "alice@EXAMPLE"); rss_total := 6;
                    pmem_total := float_lit "0.6000000000000001";
                    pcpu_total := float_lit "0" |})
  /\ collect office_cba (lit "alice") =
     Returned (Some {| username := lit "alice";
                       upn := Some (lit "alice@EXAMPLE"); rss_total := 6;
                       pmem_total := float_lit "0.6";
                       pcpu_total := float_lit "0" |})
  /\ float_lit "0.6000000000000001" <> float_lit "0.6"
  /\ rss_total {| username := lit "alice";
                  upn := Some (lit "alice@EXAMPLE"); rss_total := 6;
                  pmem_total := float_lit "0.6000000000000001";
                  pcpu_total := float_lit "0" |}
     = rss_total {| username := lit "alice";
                    upn := Some (lit "alice@EXAMPLE"); rss_total := 6;
                    pmem_total := float_lit "0.6";
                    pcpu_total := float_lit "0" |}.
Proof.
  assert (H : collect office_abc (lit "alice") =
              Returned (Some {| username := lit "alice";
                                upn := Some (lit "alice@EXAMPLE");
                                rss_total := 6;
                                pmem_total := float_lit "0.6000000000000001";
                                pcpu_total := float_lit "0" |}))
    by evaluate.
  assert (H' : collect office_cba (lit "alice") =
               Returned (Some {| username := lit "alice";
                                 upn := Some (lit "alice@EXAMPLE");
                                 rss_total := 6;
                                 pmem_total := float_lit "0.6";
                                 pcpu_total := float_lit "0" |}))
    by evaluate.
  split; [exact H |]. split; [exact H' |]. split; [evaluate |].
  apply (rss_total_order_independent office_abc office_cba (lit "alice") _ _
           (lit "1 0.1 0" ++ NL ++ lit "2 0.2 0" ++ NL ++ lit "3 0.3 0" ++ NL)
           (lit "3 0.3 0" ++ NL ++ lit "2 0.2 0" ++ NL ++ lit "1 0.1 0" ++ NL)
           H H'); [evaluate | evaluate |].
  change ([lit "1 0.1 0"; lit "2 0.2 0"; lit "3 0.3 0"]
          ≡ₚ rev [lit "1 0.1 0"; lit "2 0.2 0"; lit "3 0.3 0"]).
  apply Permutation_rev.
Defined.
